(** * front_manage: the login path

    A shallow embedding of the TypeScript sources

    - [ErrorParserService.extractMessage]
      (src/app/shared/services/error-parser.service.ts),
    - [AuthService.login], [getToken], [logout]
      (src/app/services/auth.service.ts),
    - [LoginComponent.submit] (the login component),

    together with the part of the JavaScript runtime these functions rely
    on: dynamically typed values, truthiness, property reads, string
    coercion, [JSON.parse] and exceptions.

    Conventions.  A JavaScript string is represented by the bytes of its
    UTF-8 encoding, so that string literals of the sources can be written
    down as they are.  A JavaScript number is an IEEE-754 binary64 value,
    represented with the specification floats of the standard library. *)

From Stdlib Require Import ZArith String Ascii List Bool Lia.
From Stdlib Require Import Floats.SpecFloat DecimalString.
From stdpp Require Import gmap strings.

Open Scope string_scope.

(** ** Numbers: binary64, decimal literals and [Number::toString] *)

Module Number.

Definition prec : Z := 53.
Definition emax : Z := 1024.

(** The double nearest to [(-1)^neg * m * 10^e10], ties to even: the
    number a decimal literal denotes. *)
Definition of_decimal (neg : bool) (m e10 : Z) : spec_float :=
  match m with
  | Zpos p =>
      if (0 <=? e10)%Z
      then binary_normalize prec emax
             ((if neg then Zneg p else Zpos p) * 10 ^ e10) 0 false
      else SFdiv prec emax (S754_finite neg p 0)
                 (S754_finite false (Z.to_pos (10 ^ (- e10))) 0)
  | _ => S754_zero neg
  end.

(** [pow10_le n m e] decides [10^n <= m * 2^e] on the rationals. *)
Definition pow10_le (n : Z) (m : positive) (e : Z) : bool :=
  (10 ^ Z.max n 0 * 2 ^ Z.max (- e) 0
     <=? Zpos m * 2 ^ Z.max e 0 * 10 ^ Z.max (- n) 0)%Z.

(** The [n] with [10^(n-1) <= m * 2^e < 10^n]. *)
Definition decimal_exponent (m : positive) (e : Z) : Z :=
  let guess := ((Z.log2 (Zpos m) + e) * 30103 / 100000)%Z in
  match filter (fun n => pow10_le (n - 1) m e && negb (pow10_le n m e))
               [guess - 1; guess; guess + 1; guess + 2]%Z with
  | n :: _ => n
  | [] => guess
  end.

(** [floor (m * 2^e / 10^q)]. *)
Definition scaled_floor (m : positive) (e q : Z) : Z :=
  (Zpos m * 2 ^ Z.max e 0 * 10 ^ Z.max (- q) 0
     / (2 ^ Z.max (- e) 0 * 10 ^ Z.max q 0))%Z.

(** Is [s * 10^q] at most as far from [m * 2^e] as [s' * 10^q]?  Used
    with [s <= m * 2^e / 10^q <= s']. *)
Definition closer (m : positive) (e q s s' : Z) : bool :=
  (2 * Zpos m * 2 ^ Z.max e 0 * 10 ^ Z.max (- q) 0
     <=? (s + s') * (2 ^ Z.max (- e) 0 * 10 ^ Z.max q 0))%Z.

Definition round_trips (m : positive) (e s q : Z) : bool :=
  SFeqb (of_decimal false s q) (S754_finite false m e).

(** The shortest decimal [s * 10^q] that denotes [m * 2^e], searched with
    [k = 1, 2, ...] significant digits; among two of the same length the
    one nearer to the number. *)
Fixpoint shortest (m : positive) (e n : Z) (ks : list Z) : Z * Z :=
  match ks with
  | [] => (scaled_floor m e (n - 17), n - 17)%Z
  | k :: ks' =>
      let q := (n - k)%Z in
      let lo := scaled_floor m e q in
      let hi := (lo + 1)%Z in
      match round_trips m e lo q, round_trips m e hi q with
      | true, true => if closer m e q lo hi then (lo, q) else (hi, q)
      | true, false => (lo, q)
      | false, true => (hi, q)
      | false, false => shortest m e n ks'
      end
  end.

Fixpoint strip_zeros (fuel : nat) (s q : Z) : Z * Z :=
  match fuel with
  | O => (s, q)
  | S fuel' =>
      if (0 <? s)%Z && (s mod 10 =? 0)%Z
      then strip_zeros fuel' (s / 10)%Z (q + 1)%Z
      else (s, q)
  end.

Definition digits (z : Z) : string :=
  NilZero.string_of_uint (N.to_uint (Z.to_N z)).

Fixpoint zeros (n : nat) : string :=
  match n with O => "" | S n' => "0" ++ zeros n' end.

(** [Number::toString] for a positive finite number, from its digits [ds]
    (there are [k] of them) and the position [n] of the decimal point. *)
Definition layout (ds : string) (n : Z) : string :=
  let k := Z.of_nat (String.length ds) in
  if (k <=? n)%Z && (n <=? 21)%Z then
    ds ++ zeros (Z.to_nat (n - k))
  else if (0 <? n)%Z && (n <=? 21)%Z then
    substring 0 (Z.to_nat n) ds ++ "." ++
    substring (Z.to_nat n) (Z.to_nat (k - n)) ds
  else if (-6 <? n)%Z && (n <=? 0)%Z then
    "0." ++ zeros (Z.to_nat (- n)) ++ ds
  else
    let exponent :=
      (if (0 <=? n - 1)%Z then "+" else "-") ++ digits (Z.abs (n - 1)) in
    if (k =? 1)%Z then ds ++ "e" ++ exponent
    else substring 0 1 ds ++ "." ++ substring 1 (Z.to_nat (k - 1)) ds
         ++ "e" ++ exponent.

Definition to_string_pos (m : positive) (e : Z) : string :=
  let n := decimal_exponent m e in
  let '(s, q) := shortest m e n (map Z.of_nat (seq 1 17)) in
  let '(s, q) := strip_zeros 400 s q in
  let ds := digits s in
  layout ds (q + Z.of_nat (String.length ds)).

(** [Number::toString(x)], radix 10. *)
Definition to_string (x : spec_float) : string :=
  match x with
  | S754_nan => "NaN"
  | S754_zero _ => "0"
  | S754_infinity false => "Infinity"
  | S754_infinity true => "-Infinity"
  | S754_finite false m e => to_string_pos m e
  | S754_finite true m e => "-" ++ to_string_pos m e
  end.

(** [ToBoolean] of a number: [+0], [-0] and [NaN] are falsy. *)
Definition to_boolean (x : spec_float) : bool :=
  match x with
  | S754_zero _ | S754_nan => false
  | _ => true
  end.

End Number.

(** ** JavaScript values *)

(** The values the normalizer can be handed: primitives, arrays, plain
    objects (own data properties over [Object.prototype]) and [Error]
    instances.  [VObj] lists the members in source order; a repeated key
    is overwritten by the later member. *)
#[warnings="-register-all"] Inductive value : Type :=
| VUndefined
| VNull
| VBool (b : bool)
| VNum (x : spec_float)
| VStr (s : string)
| VArr (elems : list value)
| VObj (props : list (string * value))
| VError (name message : string).

(** What a [throw] carries: the runtime's own [TypeError] and
    [SyntaxError], whose texts depend on the engine and are never read
    here, or a value thrown by the program. *)
Inductive exn : Type :=
| TypeError
| SyntaxError
| Thrown (v : value).

(** Completion of an evaluation: normal, or abrupt by [throw]. *)
Inductive completion (A : Type) : Type :=
| Return (a : A)
| Throw (e : exn).

Arguments Return {A} a.
Arguments Throw {A} e.

Definition bind {A B : Type} (c : completion A) (k : A -> completion B)
  : completion B :=
  match c with
  | Return a => k a
  | Throw e => Throw e
  end.

Notation "x <- c ;; k" := (bind c (fun x => k))
  (at level 100, c at next level, right associativity).

(** [try { body } catch { handler }] with a handler that ignores what was
    thrown, which is the only form the sources use. *)
Definition try_catch {A : Type} (body handler : completion A) : completion A :=
  match body with
  | Return a => Return a
  | Throw _ => handler
  end.

(** [typeof v]. *)
Definition typeof (v : value) : string :=
  match v with
  | VUndefined => "undefined"
  | VNull => "object"
  | VBool _ => "boolean"
  | VNum _ => "number"
  | VStr _ => "string"
  | VArr _ | VObj _ | VError _ _ => "object"
  end.

(** [ToBoolean v]: the truthiness tested by [if], [&&] and [||]. *)
Definition ToBoolean (v : value) : bool :=
  match v with
  | VUndefined | VNull => false
  | VBool b => b
  | VNum x => Number.to_boolean x
  | VStr s => negb (s =? "")
  | VArr _ | VObj _ | VError _ _ => true
  end.

(** The own data property [k] of an object literal or parsed object. *)
Fixpoint own_property (props : list (string * value)) (k : string)
  : option value :=
  match props with
  | [] => None
  | (k', v) :: rest =>
      match own_property rest k with
      | Some v' => Some v'
      | None => if k =? k' then Some v else None
      end
  end.

(** [v[k]] for a [v] other than [undefined] and [null], and for a name [k]
    that the built-in prototypes do not define (the sources read
    [message], [errors], [error], [field] and [token]).  An [Error] has
    its [message], and [name] through its prototype. *)
Definition Get (v : value) (k : string) : value :=
  match v with
  | VObj props => default VUndefined (own_property props k)
  | VError name message =>
      if k =? "message" then VStr message
      else if k =? "name" then VStr name
      else VUndefined
  | _ => VUndefined
  end.

(** [v.k]: reading a property of [undefined] or [null] throws. *)
Definition GetV (v : value) (k : string) : completion value :=
  match v with
  | VUndefined | VNull => Throw TypeError
  | _ => Return (Get v k)
  end.

(** [v?.k]: optional chaining yields [undefined] instead. *)
Definition OptGet (v : value) (k : string) : value :=
  match v with
  | VUndefined | VNull => VUndefined
  | _ => Get v k
  end.

Definition Array_isArray (v : value) : bool :=
  match v with VArr _ => true | _ => false end.

(** [v.length] and [v[i]] of an array. *)
Definition Array_length (v : value) : nat :=
  match v with VArr elems => length elems | _ => 0 end.

Definition Array_at (v : value) (i : nat) : value :=
  match v with VArr elems => nth i elems VUndefined | _ => VUndefined end.

(** [Error.prototype.toString]. *)
Definition Error_toString (name message : string) : string :=
  if name =? "" then message
  else if message =? "" then name
  else name ++ ": " ++ message.

(** [ToString v], the coercion behind [String(v)] and template literals.
    A plain object answers through [Object.prototype.toString] unless an
    own member named [toString] shadows it: that member is data, not a
    function, [valueOf] yields no primitive either, and the coercion
    throws.  An array joins the coercions of its elements with commas,
    [undefined] and [null] counting as empty. *)
Fixpoint ToString (v : value) : completion string :=
  match v with
  | VUndefined => Return "undefined"
  | VNull => Return "null"
  | VBool true => Return "true"
  | VBool false => Return "false"
  | VNum x => Return (Number.to_string x)
  | VStr s => Return s
  | VArr elems =>
      let element (e : value) : completion string :=
        match e with
        | VUndefined | VNull => Return ""
        | _ => ToString e
        end in
      (fix join (l : list value) : completion string :=
         match l with
         | [] => Return ""
         | e :: rest =>
             s <- element e ;;
             match rest with
             | [] => Return s
             | _ => r <- join rest ;; Return (s ++ "," ++ r)
             end
         end) elems
  | VObj props =>
      match own_property props "toString" with
      | Some _ => Throw TypeError
      | None => Return "[object Object]"
      end
  | VError name message => Return (Error_toString name message)
  end.

(** [String(v)] and a template literal with two holes. *)
Definition String_ (v : value) : completion value :=
  s <- ToString v ;; Return (VStr s).

(** ** [JSON.parse] *)

Module JSON.

Definition dquote : ascii := "034"%char.

Inductive token : Type :=
| TLBrace | TRBrace | TLBracket | TRBracket | TColon | TComma
| TString (s : string)
| TNumber (x : spec_float)
| TTrue | TFalse | TNull.

(** *** Number literals

    An optional minus; a zero or a digit string without leading zero; an
    optional fraction of a point and digits; an optional exponent of [e]
    or [E], an optional sign and digits. *)

Inductive nstate : Type :=
| NStart | NMinus | NZero | NInt | NDot | NFrac | NExp | NExpSign | NExpDigits.

Record nacc : Type := {
  neg : bool;       (* a leading minus *)
  mant : Z;         (* the digits of the integer and fraction parts *)
  scale : Z;        (* how many of them belong to the fraction *)
  eneg : bool;      (* a minus in the exponent *)
  expo : Z          (* the digits of the exponent *)
}.

Definition digit_of (c : ascii) : option Z :=
  let n := Z.of_N (N_of_ascii c) in
  if (48 <=? n)%Z && (n <=? 57)%Z then Some (n - 48)%Z else None.

Definition nstep (st : nstate) (a : nacc) (c : ascii)
  : option (nstate * nacc) :=
  let int_digit d :=
    {| neg := neg a; mant := mant a * 10 + d; scale := scale a;
       eneg := eneg a; expo := expo a |} in
  let frac_digit d :=
    {| neg := neg a; mant := mant a * 10 + d; scale := scale a + 1;
       eneg := eneg a; expo := expo a |} in
  let exp_digit d :=
    {| neg := neg a; mant := mant a; scale := scale a;
       eneg := eneg a; expo := expo a * 10 + d |} in
  match st, digit_of c, c with
  | NStart, None, "-"%char =>
      Some (NMinus, {| neg := true; mant := 0; scale := 0;
                       eneg := false; expo := 0 |})
  | (NStart | NMinus), Some 0%Z, _ => Some (NZero, a)
  | (NStart | NMinus | NInt), Some d, _ => Some (NInt, int_digit d)
  | (NZero | NInt), None, "."%char => Some (NDot, a)
  | (NDot | NFrac), Some d, _ => Some (NFrac, frac_digit d)
  | (NZero | NInt | NFrac), None, ("e" | "E")%char => Some (NExp, a)
  | NExp, None, "+"%char => Some (NExpSign, a)
  | NExp, None, "-"%char =>
      Some (NExpSign, {| neg := neg a; mant := mant a; scale := scale a;
                         eneg := true; expo := expo a |})
  | (NExp | NExpSign | NExpDigits), Some d, _ => Some (NExpDigits, exp_digit d)
  | _, _, _ => None
  end.

Fixpoint number_literal (st : nstate) (a : nacc) (cs : list ascii)
  : option spec_float :=
  match cs with
  | [] =>
      match st with
      | NZero | NInt | NFrac | NExpDigits =>
          Some (Number.of_decimal (neg a) (mant a)
                  ((if eneg a then - expo a else expo a) - scale a))
      | _ => None
      end
  | c :: cs' =>
      match nstep st a c with
      | Some (st', a') => number_literal st' a' cs'
      | None => None
      end
  end.

Definition number_of (cs : list ascii) : option spec_float :=
  number_literal NStart
    {| neg := false; mant := 0; scale := 0; eneg := false; expo := 0 |} cs.

Definition is_number_char (c : ascii) : bool :=
  match digit_of c, c with
  | Some _, _ => true
  | None, ("+" | "-" | "." | "e" | "E")%char => true
  | None, _ => false
  end.

(** *** Strings: escapes, with [\uXXXX] code units re-encoded as UTF-8 *)

Definition hex_of (c : ascii) : option N :=
  let n := N_of_ascii c in
  if (48 <=? n)%N && (n <=? 57)%N then Some (n - 48)%N
  else if (65 <=? n)%N && (n <=? 70)%N then Some (n - 55)%N
  else if (97 <=? n)%N && (n <=? 102)%N then Some (n - 87)%N
  else None.

(** The UTF-8 bytes of a code point, last byte first.  A lone surrogate
    code unit is encoded like any other three-byte code point. *)
Definition utf8_rev (cp : N) : list ascii :=
  let byte n := ascii_of_N n in
  let cont n := byte (128 + n mod 64)%N in
  if (cp <? 128)%N then [byte cp]
  else if (cp <? 2048)%N then [cont cp; byte (192 + cp / 64)%N]
  else if (cp <? 65536)%N then
    [cont cp; cont (cp / 64)%N; byte (224 + cp / 4096)%N]
  else
    [cont cp; cont (cp / 64)%N; cont (cp / 4096)%N;
     byte (240 + cp / 262144)%N].

Definition is_high_surrogate (u : N) : bool :=
  (55296 <=? u)%N && (u <=? 56319)%N.
Definition is_low_surrogate (u : N) : bool :=
  (56320 <=? u)%N && (u <=? 57343)%N.

(** A string under construction: the bytes so far, last first, and a high
    surrogate read from an escape that may still pair with a low one. *)
Record partial : Type := { bytes : list ascii; high : option N }.

Definition flush (p : partial) : list ascii :=
  match high p with
  | Some h => utf8_rev h ++ bytes p
  | None => bytes p
  end.

Definition push_byte (p : partial) (c : ascii) : partial :=
  {| bytes := c :: flush p; high := None |}.

Definition push_unit (p : partial) (u : N) : partial :=
  match high p with
  | Some h =>
      if is_low_surrogate u then
        {| bytes := utf8_rev (65536 + (h - 55296) * 1024 + (u - 56320))%N
                    ++ bytes p;
           high := None |}
      else if is_high_surrogate u then {| bytes := flush p; high := Some u |}
      else {| bytes := utf8_rev u ++ flush p; high := None |}
  | None =>
      if is_high_surrogate u then {| bytes := bytes p; high := Some u |}
      else {| bytes := utf8_rev u ++ bytes p; high := None |}
  end.

Definition finish_string (p : partial) : string :=
  string_of_list_ascii (rev (flush p)).

(** *** The lexer, one character at a time *)

Inductive mode : Type :=
| Between                                   (* outside any token *)
| InString (p : partial)
| InEscape (p : partial)                    (* after a backslash *)
| InUnicode (p : partial) (hs : list N)     (* after [\u], digits read *)
| InNumber (cs : list ascii)                (* characters read, last first *)
| InWord (cs : list ascii).

Definition is_space (c : ascii) : bool :=
  match c with
  | " "%char | "009"%char | "010"%char | "013"%char => true
  | _ => false
  end.

Definition is_lower (c : ascii) : bool :=
  let n := N_of_ascii c in (97 <=? n)%N && (n <=? 122)%N.

Definition word_of (cs : list ascii) : option token :=
  let w := string_of_list_ascii cs in
  if w =? "true" then Some TTrue
  else if w =? "false" then Some TFalse
  else if w =? "null" then Some TNull
  else None.

(** A character met outside any token. *)
Definition between (c : ascii) : option (list token * mode) :=
  if is_space c then Some ([], Between)
  else if Ascii.eqb c dquote then
    Some ([], InString {| bytes := []; high := None |})
  else if is_lower c then Some ([], InWord [c])
  else
    match digit_of c, c with
    | Some _, _ | None, "-"%char => Some ([], InNumber [c])
    | None, "{"%char => Some ([TLBrace], Between)
    | None, "}"%char => Some ([TRBrace], Between)
    | None, "["%char => Some ([TLBracket], Between)
    | None, "]"%char => Some ([TRBracket], Between)
    | None, ":"%char => Some ([TColon], Between)
    | None, ","%char => Some ([TComma], Between)
    | None, _ => None
    end.

Definition escape (c : ascii) : option ascii :=
  match c with
  | "\"%char => Some "\"%char
  | "/"%char => Some "/"%char
  | "b"%char => Some "008"%char
  | "f"%char => Some "012"%char
  | "n"%char => Some "010"%char
  | "r"%char => Some "013"%char
  | "t"%char => Some "009"%char
  | _ => if Ascii.eqb c dquote then Some dquote else None
  end.

(** One step of the lexer: the tokens completed by [c], first to last,
    and the mode after it; [None] on a character that cannot occur. *)
Definition lex_step (m : mode) (c : ascii) : option (list token * mode) :=
  match m with
  | Between => between c
  | InString p =>
      if Ascii.eqb c dquote then Some ([TString (finish_string p)], Between)
      else if Ascii.eqb c "\"%char then Some ([], InEscape p)
      else if (N_of_ascii c <? 32)%N then None
      else Some ([], InString (push_byte p c))
  | InEscape p =>
      if Ascii.eqb c "u"%char then Some ([], InUnicode p [])
      else
        match escape c with
        | Some b => Some ([], InString (push_byte p b))
        | None => None
        end
  | InUnicode p hs =>
      match hex_of c, hs with
      | Some h, [h2; h1; h0] =>
          Some ([], InString
                      (push_unit p (h0 * 4096 + h1 * 256 + h2 * 16 + h)%N))
      | Some h, _ => Some ([], InUnicode p (h :: hs))
      | None, _ => None
      end
  | InNumber cs =>
      if is_number_char c then Some ([], InNumber (c :: cs))
      else
        match number_of (rev cs), between c with
        | Some x, Some (ts, m') => Some (TNumber x :: ts, m')
        | _, _ => None
        end
  | InWord cs =>
      if is_lower c then Some ([], InWord (c :: cs))
      else
        match word_of (rev cs), between c with
        | Some t, Some (ts, m') => Some (t :: ts, m')
        | _, _ => None
        end
  end.

(** At the end of the text a number or a word is complete; a string is
    not. *)
Definition lex_end (m : mode) : option (list token) :=
  match m with
  | Between => Some []
  | InNumber cs =>
      match number_of (rev cs) with Some x => Some [TNumber x] | None => None end
  | InWord cs =>
      match word_of (rev cs) with Some t => Some [t] | None => None end
  | InString _ | InEscape _ | InUnicode _ _ => None
  end.

Fixpoint lex (m : mode) (s : string) : option (list token) :=
  match s with
  | EmptyString => lex_end m
  | String c s' =>
      match lex_step m c with
      | Some (ts, m') =>
          match lex m' s' with
          | Some ts' => Some (ts ++ ts')%list
          | None => None
          end
      | None => None
      end
  end.

(** *** The parser, one token at a time *)

(** A container that waits for the value being read. *)
Inductive frame : Type :=
| InArr (done : list value)                         (* elements, last first *)
| InObj (done : list (string * value)) (key : string).

Inductive pstate : Type :=
| ExpectValue (stk : list frame)
| ArrOpen (stk : list frame)                        (* after [[] *)
| ObjOpen (stk : list frame)                        (* after [{] *)
| ExpectKey (done : list (string * value)) (stk : list frame)
| ExpectColon (done : list (string * value)) (key : string)
              (stk : list frame)
| ArrNext (done : list value) (stk : list frame)    (* after an element *)
| ObjNext (done : list (string * value)) (stk : list frame)
| Done (v : value).

Definition deliver (v : value) (stk : list frame) : pstate :=
  match stk with
  | [] => Done v
  | InArr done :: stk' => ArrNext (v :: done) stk'
  | InObj done key :: stk' => ObjNext ((key, v) :: done) stk'
  end.

Definition begin_value (t : token) (stk : list frame) : option pstate :=
  match t with
  | TLBracket => Some (ArrOpen stk)
  | TLBrace => Some (ObjOpen stk)
  | TString s => Some (deliver (VStr s) stk)
  | TNumber x => Some (deliver (VNum x) stk)
  | TTrue => Some (deliver (VBool true) stk)
  | TFalse => Some (deliver (VBool false) stk)
  | TNull => Some (deliver VNull stk)
  | TRBrace | TRBracket | TColon | TComma => None
  end.

Definition parse_step (st : pstate) (t : token) : option pstate :=
  match st, t with
  | ExpectValue stk, _ => begin_value t stk
  | ArrOpen stk, TRBracket => Some (deliver (VArr []) stk)
  | ArrOpen stk, _ => begin_value t (InArr [] :: stk)
  | ObjOpen stk, TRBrace => Some (deliver (VObj []) stk)
  | ObjOpen stk, TString k => Some (ExpectColon [] k stk)
  | ExpectKey done stk, TString k => Some (ExpectColon done k stk)
  | ExpectColon done k stk, TColon => Some (ExpectValue (InObj done k :: stk))
  | ArrNext done stk, TComma => Some (ExpectValue (InArr done :: stk))
  | ArrNext done stk, TRBracket => Some (deliver (VArr (rev done)) stk)
  | ObjNext done stk, TComma => Some (ExpectKey done stk)
  | ObjNext done stk, TRBrace => Some (deliver (VObj (rev done)) stk)
  | _, _ => None
  end.

Fixpoint parse_tokens (st : pstate) (ts : list token) : option value :=
  match ts with
  | [] => match st with Done v => Some v | _ => None end
  | t :: ts' =>
      match parse_step st t with
      | Some st' => parse_tokens st' ts'
      | None => None
      end
  end.

(** [JSON.parse(text)]: the parsed value, or [None] where the runtime
    throws a [SyntaxError]. *)
Definition parse (text : string) : option value :=
  match lex Between text with
  | Some ts => parse_tokens (ExpectValue []) ts
  | None => None
  end.

End JSON.

(** [JSON.parse(text)] applied to a value: the argument is coerced to a
    string first. *)
Definition JSON_parse (text : value) : completion value :=
  s <- ToString text ;;
  match JSON.parse s with
  | Some v => Return v
  | None => Throw SyntaxError
  end.

(** ** ErrorParserService (error-parser.service.ts) *)

Module ErrorParserService.

(** The first three steps either leave the function through a [return]
    or settle the object the later steps work on, [errorObj]. *)
Inductive selected : Type :=
| Returned (v : value)
| Working (errorObj : value).

(** Steps 1 to 3 (lines 88-132). *)
Definition working_object (error : value) : selected :=
  if typeof error =? "string" then
    match JSON_parse error with
    | Return parsed => Working parsed
    | Throw _ => Returned error
    end
  else if ToBoolean (OptGet error "message")
          && (typeof (Get error "message") =? "string") then
    match JSON_parse (Get error "message") with
    | Return parsed => Working parsed
    | Throw _ => Returned (Get error "message")
    end
  else Working error.

(** [a && b] on completions: [b] is evaluated when [a] is truthy. *)
Definition and_then (a b : completion value) : completion value :=
  x <- a ;; if ToBoolean x then b else Return x.

(** Lines 162-175: the answer drawn from [firstError = errorObj.errors[0]]. *)
Definition first_error_message (firstError : value) : completion value :=
  both <- and_then (GetV firstError "field") (GetV firstError "message") ;;
  if ToBoolean both then
    field <- GetV firstError "field" ;;
    message <- GetV firstError "message" ;;
    f <- ToString field ;;
    m <- ToString message ;;
    Return (VStr (f ++ ": " ++ m))
  else
    message <- GetV firstError "message" ;;
    if ToBoolean message then Return message
    else String_ firstError.

(** Steps 4 to 6 and the fallback (lines 156-230).  Where a guard has
    found [errorObj?.errors] truthy, [errorObj] is neither [undefined]
    nor [null] and [errorObj.errors] reads the same value; likewise for
    [message] and [error]. *)
Definition from_working (errorObj error : value) : completion value :=
  let errors := OptGet errorObj "errors" in
  if ToBoolean errors && Array_isArray errors && (0 <? Array_length errors)%nat
  then
    let firstError := Array_at errors 0 in
    first_error_message firstError
  else if ToBoolean (OptGet errorObj "message")
          && (typeof (OptGet errorObj "message") =? "string")
  then Return (OptGet errorObj "message")
  else if ToBoolean (OptGet errorObj "error")
          && (typeof (OptGet errorObj "error") =? "string")
  then Return (OptGet errorObj "error")
  else String_ error.

(** The handler of the outer [catch] (line 250). *)
Definition last_resort (error : value) : completion value :=
  if typeof error =? "string" then Return error else String_ error.

(** [extractMessage(error)] (lines 70-252).  The declared result type
    [string] is a compile-time annotation over data of type [any]; what
    the function hands back at run time is a value. *)
Definition extractMessage (error : value) : completion value :=
  try_catch
    (match working_object error with
     | Returned v => Return v
     | Working errorObj => from_working errorObj error
     end)
    (last_resort error).

End ErrorParserService.

Import ErrorParserService.

(** ** AuthService (auth.service.ts) *)

Module AuthService.

(** [localStorage]: string keys, string values. *)
Abbreviation storage := (gmap string string).

Definition setItem (k v : string) (ls : storage) : storage := <[k := v]> ls.
Definition getItem (k : string) (ls : storage) : option string := ls !! k.
Definition removeItem (k : string) (ls : storage) : storage := delete k ls.

(** What [fetch] hands back: the status and the body text of a response,
    or no response at all (the promise rejects with a [TypeError]). *)
Record response : Type := { status : Z; body : string }.

Inductive fetched : Type :=
| Responded (resp : response)
| Failed.

(** [resp.ok]: a status from 200 to 299. *)
Definition ok (resp : response) : bool :=
  (200 <=? status resp)%Z && (status resp <=? 299)%Z.

(** [login(payload)], given the outcome of its [fetch]: how the promise
    settles, and the storage afterwards.  [setItem] coerces the token to
    a string, which can throw before anything is stored. *)
Definition login (net : fetched) (ls : storage) : completion value * storage :=
  match net with
  | Failed => (Throw TypeError, ls)
  | Responded resp =>
      if negb (ok resp) then
        let text := body resp in
        let message :=
          if ToBoolean (VStr text) then text
          else "Login failed: " ++ Number.digits (status resp) in
        (Throw (Thrown (VError "Error" message)), ls)
      else
        match JSON_parse (VStr (body resp)) with
        | Throw e => (Throw e, ls)
        | Return data =>
            if ToBoolean (OptGet data "token") then
              match ToString (Get data "token") with
              | Return token => (Return data, setItem "auth_token" token ls)
              | Throw e => (Throw e, ls)
              end
            else (Return data, ls)
        end
  end.

Definition getToken (ls : storage) : option string := getItem "auth_token" ls.

Definition logout (ls : storage) : storage := removeItem "auth_token" ls.

End AuthService.

(** ** LoginComponent (login.component.ts) *)

Module LoginComponent.

Import ErrorParserService.

(** [form.value]. *)
Record credentials : Type := { email : string; password : string }.

(** The fields of the component.  [error] holds [null] or what
    [extractMessage] returned. *)
Record component : Type := {
  form : credentials;
  loading : bool;
  error : value;
  success : bool
}.

(** [form.invalid]: the password carries [Validators.required]. *)
Definition invalid (f : credentials) : bool := password f =? "".

(** The component, the calls to [auth.login] that have been issued and
    have not settled yet, oldest first, and the number of navigations
    started by [submit()] that have not settled yet. *)
Record system : Type := {
  comp : component;
  outstanding : list credentials;
  navigating : nat
}.

Definition init (f : credentials) : system :=
  {| comp := {| form := f; loading := false; error := VNull; success := false |};
     outstanding := [];
     navigating := 0 |}.

(** [submit()] up to its first [await] (lines 154-177): nothing happens on
    an invalid form; otherwise the flag is raised, the error cleared and
    [auth.login(payload)] called. *)
Definition submit (s : system) : system :=
  let c := comp s in
  if invalid (form c) then s
  else
    {| comp := {| form := form c; loading := true; error := VNull;
                  success := success c |};
       outstanding := (outstanding s ++ [form c])%list;
       navigating := navigating s |}.

(** [submit()] resumed when the awaited login has fulfilled, up to the
    [await] of [router.navigate] (lines 179-190).  [detectChanges] is taken
    not to throw. *)
Definition on_fulfilled (c : component) : component :=
  {| form := form c; loading := false; error := error c; success := true |}.

(** The [catch] block, entered with [err] when the awaited login or the
    awaited navigation has rejected (lines 192-209).  Should
    [extractMessage] throw, the block is left before either assignment. *)
Definition on_rejected (err : value) (c : component) : component :=
  match extractMessage err with
  | Return message =>
      {| form := form c; loading := false; error := message;
         success := success c |}
  | Throw _ => c
  end.

Inductive event : Type :=
| Edit (f : credentials)             (* the user changes the form *)
| Submit                             (* [submit()] is called *)
| Fulfilled (i : nat)                (* the [i]-th outstanding login fulfils *)
| Rejected (i : nat) (err : value)   (* ... or rejects with [err] *)
| Navigated                          (* an awaited navigation fulfils *)
| NavigationFailed (err : value).    (* ... or rejects with [err] *)

(** One event; [None] when it cannot happen (no such outstanding call, no
    navigation under way). *)
Definition step (s : system) (e : event) : option system :=
  match e with
  | Edit f =>
      Some {| comp := {| form := f; loading := loading (comp s);
                         error := error (comp s); success := success (comp s) |};
              outstanding := outstanding s;
              navigating := navigating s |}
  | Submit => Some (submit s)
  | Fulfilled i =>
      match outstanding s !! i with
      | Some _ => Some {| comp := on_fulfilled (comp s);
                          outstanding := delete i (outstanding s);
                          navigating := S (navigating s) |}
      | None => None
      end
  | Rejected i err =>
      match outstanding s !! i with
      | Some _ => Some {| comp := on_rejected err (comp s);
                          outstanding := delete i (outstanding s);
                          navigating := navigating s |}
      | None => None
      end
  | Navigated =>
      match navigating s with
      | S n => Some {| comp := comp s; outstanding := outstanding s;
                       navigating := n |}
      | O => None
      end
  | NavigationFailed err =>
      match navigating s with
      | S n => Some {| comp := on_rejected err (comp s);
                       outstanding := outstanding s;
                       navigating := n |}
      | O => None
      end
  end.

Fixpoint run (s : system) (es : list event) : option system :=
  match es with
  | [] => Some s
  | e :: es' =>
      match step s e with
      | Some s' => run s' es'
      | None => None
      end
  end.

(** Runs in which [submit()] is only called while the loading flag is
    clear, as when the caller disables submission while it is raised. *)
Fixpoint gated (s : system) (es : list event) : bool :=
  match es with
  | [] => true
  | e :: es' =>
      match e with
      | Submit => negb (loading (comp s))
      | _ => true
      end
      && match step s e with
         | Some s' => gated s' es'
         | None => true
         end
  end.

(** Runs in which no navigation rejects while a login is outstanding. *)
Fixpoint failures_apart (s : system) (es : list event) : bool :=
  match es with
  | [] => true
  | e :: es' =>
      match e, outstanding s with
      | NavigationFailed _, _ :: _ => false
      | _, _ => true
      end
      && match step s e with
         | Some s' => failures_apart s' es'
         | None => true
         end
  end.

End LoginComponent.

(** ** The login attempt: [submit] awaiting [AuthService.login] *)

Module LoginAttempt.

Import AuthService LoginComponent.

(** What the [catch] clause of [submit] binds when the awaited login has
    thrown [e]: the thrown value, or the [Error] instance the runtime made,
    whose message text [engine_message] depends on the engine. *)
Definition caught (engine_message : string) (e : exn) : value :=
  match e with
  | Thrown v => v
  | TypeError => VError "TypeError" engine_message
  | SyntaxError => VError "SyntaxError" engine_message
  end.

(** The [i]-th outstanding call of [auth.login] settles as [login] does on
    the outcome [net] of its [fetch], and [submit] resumes (line 177 on). *)
Definition settle (engine_message : string) (net : fetched) (ls : storage)
    (s : system) (i : nat) : option system * storage :=
  match login net ls with
  | (Return _, ls') => (step s (Fulfilled i), ls')
  | (Throw e, ls') => (step s (Rejected i (caught engine_message e)), ls')
  end.

End LoginAttempt.

(** ** LoginComponent, the revision without the error parser *)

Module LoginComponentPlain.

(** [form.value]. *)
Record credentials : Type := {
  username : string;
  email : string;
  password : string
}.

Record component : Type := {
  form : credentials;
  loading : bool;
  error : value
}.

(** [form.invalid]: the password carries [Validators.required]. *)
Definition invalid (f : credentials) : bool := password f =? "".

Record system : Type := {
  comp : component;
  outstanding : list credentials;   (* logins awaited, oldest first *)
  navigating : nat                  (* navigations awaited *)
}.

Definition init (f : credentials) : system :=
  {| comp := {| form := f; loading := false; error := VNull |};
     outstanding := [];
     navigating := 0 |}.

(** [submit()] up to its first [await]. *)
Definition submit (s : system) : system :=
  let c := comp s in
  if invalid (form c) then s
  else
    {| comp := {| form := form c; loading := true; error := VNull |};
       outstanding := (outstanding s ++ [form c])%list;
       navigating := navigating s |}.

(** The [finally] block. *)
Definition on_finally (c : component) : component :=
  {| form := form c; loading := false; error := error c |}.

(** The [catch] block, [this.error = err?.message || String(err)], followed
    by the [finally] block.  Should the coercion throw, the assignment is
    skipped and the [finally] block still runs. *)
Definition on_caught (err : value) (c : component) : component :=
  let shown :=
    if ToBoolean (OptGet err "message") then Return (OptGet err "message")
    else String_ err in
  match shown with
  | Return v => on_finally {| form := form c; loading := loading c; error := v |}
  | Throw _ => on_finally c
  end.

Inductive event : Type :=
| Edit (f : credentials)
| Submit
| Fulfilled (i : nat)                (* the [i]-th awaited login fulfils *)
| Rejected (i : nat) (err : value)   (* ... or rejects with [err] *)
| Navigated                          (* an awaited navigation fulfils *)
| NavigationFailed (err : value).    (* ... or rejects with [err] *)

Definition step (s : system) (e : event) : option system :=
  match e with
  | Edit f =>
      Some {| comp := {| form := f; loading := loading (comp s);
                         error := error (comp s) |};
              outstanding := outstanding s;
              navigating := navigating s |}
  | Submit => Some (submit s)
  | Fulfilled i =>
      match outstanding s !! i with
      | Some _ => Some {| comp := comp s;
                          outstanding := delete i (outstanding s);
                          navigating := S (navigating s) |}
      | None => None
      end
  | Rejected i err =>
      match outstanding s !! i with
      | Some _ => Some {| comp := on_caught err (comp s);
                          outstanding := delete i (outstanding s);
                          navigating := navigating s |}
      | None => None
      end
  | Navigated =>
      match navigating s with
      | S n => Some {| comp := on_finally (comp s);
                       outstanding := outstanding s;
                       navigating := n |}
      | O => None
      end
  | NavigationFailed err =>
      match navigating s with
      | S n => Some {| comp := on_caught err (comp s);
                       outstanding := outstanding s;
                       navigating := n |}
      | O => None
      end
  end.

Fixpoint run (s : system) (es : list event) : option system :=
  match es with
  | [] => Some s
  | e :: es' =>
      match step s e with
      | Some s' => run s' es'
      | None => None
      end
  end.

(** Runs in which [submit()] is only called while the flag is clear. *)
Fixpoint gated (s : system) (es : list event) : bool :=
  match es with
  | [] => true
  | e :: es' =>
      match e with
      | Submit => negb (loading (comp s))
      | _ => true
      end
      && match step s e with
         | Some s' => gated s' es'
         | None => true
         end
  end.

End LoginComponentPlain.

(** ** NotificationService (notification.service.ts) *)

Module NotificationService.

Inductive kind : Type := Error | Success | Warning | Info.

Record Notification : Type := {
  id : string;
  type : kind;
  title : string;
  message : string;
  duration : option spec_float        (* [duration?: number] *)
}.

(** The test [if (notification.duration)]. *)
Definition expires (n : Notification) : bool :=
  match duration n with
  | Some d => Number.to_boolean d
  | None => false
  end.

(** The list held by [notifications$], and the callbacks handed to
    [setTimeout] that have not run yet: the id each will remove, and its
    delay. *)
Record service : Type := {
  notifications : list Notification;
  timers : list (string * spec_float)
}.

Definition empty : service := {| notifications := []; timers := [] |}.

Definition addNotification (n : Notification) (s : service) : service :=
  {| notifications := (notifications s ++ [n])%list;
     timers :=
       match duration n with
       | Some d =>
           if Number.to_boolean d then (timers s ++ [(id n, d)])%list
           else timers s
       | None => timers s
       end |}.

Definition removeNotification (i : string) (s : service) : service :=
  {| notifications := List.filter (fun n => negb (id n =? i)) (notifications s);
     timers := timers s |}.

(** A number of milliseconds. *)
Definition ms (n : Z) : spec_float := Number.of_decimal false n 0.

(** The four producers.  [fresh] is what [generateId()] returned, a text
    drawn from the clock and [Math.random]; an omitted [duration] takes the
    default of the method. *)
Definition error (fresh title message : string) (duration : option spec_float)
    (s : service) : service :=
  addNotification
    {| id := fresh; type := Error; title := title; message := message;
       duration := Some (default (ms 5000) duration) |} s.

Definition success (fresh title message : string) (duration : option spec_float)
    (s : service) : service :=
  addNotification
    {| id := fresh; type := Success; title := title; message := message;
       duration := Some (default (ms 3000) duration) |} s.

Definition warning (fresh title message : string) (duration : option spec_float)
    (s : service) : service :=
  addNotification
    {| id := fresh; type := Warning; title := title; message := message;
       duration := Some (default (ms 4000) duration) |} s.

Definition info (fresh title message : string) (duration : option spec_float)
    (s : service) : service :=
  addNotification
    {| id := fresh; type := Info; title := title; message := message;
       duration := Some (default (ms 3000) duration) |} s.

(** What can happen to the service: a producer is called, a notification is
    dismissed, or a pending timer runs its callback.  Timers may run in any
    order. *)
Inductive event : Type :=
| Notify (k : kind) (fresh title message : string)
         (duration : option spec_float)
| Remove (i : string)
| Fire (j : nat).

Definition step (s : service) (e : event) : option service :=
  match e with
  | Notify Error fresh title message duration =>
      Some (error fresh title message duration s)
  | Notify Success fresh title message duration =>
      Some (success fresh title message duration s)
  | Notify Warning fresh title message duration =>
      Some (warning fresh title message duration s)
  | Notify Info fresh title message duration =>
      Some (info fresh title message duration s)
  | Remove i => Some (removeNotification i s)
  | Fire j =>
      match timers s !! j with
      | Some (i, _) =>
          Some {| notifications := notifications (removeNotification i s);
                  timers := delete j (timers s) |}
      | None => None
      end
  end.

Fixpoint run (s : service) (es : list event) : option service :=
  match es with
  | [] => Some s
  | e :: es' =>
      match step s e with
      | Some s' => run s' es'
      | None => None
      end
  end.

End NotificationService.

(** ** AlertComponent (alert.component.ts) *)

Module AlertComponent.

(** [AlertData]; [type] is whatever text the input carries at run time. *)
Record AlertData : Type := {
  id : string;
  type : string;
  title : string;
  message : string
}.

Definition getIcon (alert : AlertData) : string :=
  if type alert =? "error" then "⚠️"
  else if type alert =? "success" then "✓"
  else if type alert =? "warning" then "⚡"
  else if type alert =? "info" then "ℹ️"
  else "•".

(** [onClose()]: the value emitted on [close]. *)
Definition onClose (alert : AlertData) : string := id alert.

End AlertComponent.

(** * Properties *)

Import AuthService LoginComponent.

(** The quotation mark, for writing JSON texts. *)
Definition q : string := String JSON.dquote EmptyString.

(** ** Sample inputs *)

(** [{"message":"Email inválido"}] and [{"error":"Email inválido"}]. *)
Definition json_message : string :=
  "{" ++ q ++ "message" ++ q ++ ":" ++ q ++ "Email inválido" ++ q ++ "}".
Definition json_error : string :=
  "{" ++ q ++ "error" ++ q ++ ":" ++ q ++ "Email inválido" ++ q ++ "}".

(** [{"errors":[{"message":true}]}]. *)
Definition json_untyped_message : string :=
  "{" ++ q ++ "errors" ++ q ++ ":[{" ++ q ++ "message" ++ q ++ ":true}]}".

(** [{"errors":[null,1]}] and [{"errors":[null,2]}]. *)
Definition json_null_first (n : string) : string :=
  "{" ++ q ++ "errors" ++ q ++ ":[null," ++ n ++ "]}".

(** [{errors: [{field: "", message: "Email inválido"}]}],
    [{message: ""}] and [{error: ""}]. *)
Definition empty_field_error : value :=
  VObj [("errors",
         VArr [VObj [("field", VStr ""); ("message", VStr "Email inválido")]])].
Definition empty_message_error : value := VObj [("message", VStr "")].
Definition empty_error_error : value := VObj [("error", VStr "")].



(** A run with a navigation that fails while no login is outstanding. *)
Definition failed_navigation_run : list event :=
  [Submit; Fulfilled 0; NavigationFailed (VStr "NG04002"); Submit].

(** The second example of the specification's validation errors. *)
Definition validation_errors : value :=
  VObj [("errors",
         VArr [VObj [("field", VStr "email"); ("message", VStr "Email inválido")];
               VObj [("field", VStr "password"); ("message", VStr "Senha fraca")]])].

(** [{"token":"abc","expiresIn":3600}] and [{"expiresIn":3600}]. *)
Definition json_token : string :=
  "{" ++ q ++ "token" ++ q ++ ":" ++ q ++ "abc" ++ q ++ ","
      ++ q ++ "expiresIn" ++ q ++ ":3600}".
Definition json_no_token : string :=
  "{" ++ q ++ "expiresIn" ++ q ++ ":3600}".

Definition sample_credentials : credentials :=
  {| email := "joao@example.com"; password := "senhaSegura" |}.

(** At most one login outstanding, and the flag raised while there is one. *)
Definition single_request (s : system) : Prop :=
  length (outstanding s) <= 1
  /\ (outstanding s <> [] -> loading (comp s) = true).

(** A component with one login awaited, as [submit] leaves it. *)
Definition awaiting_login : system :=
  {| comp := {| form := sample_credentials; loading := true;
                error := VNull; success := false |};
     outstanding := [sample_credentials];
     navigating := 0 |}.

(** A component after a successful attempt, its navigation under way. *)
Definition succeeded : system :=
  {| comp := {| form := sample_credentials; loading := false;
                error := VNull; success := true |};
     outstanding := [];
     navigating := 1 |}.

(** Events that never put a password into the form. *)
Definition blank_passwords (es : list event) : bool :=
  forallb (fun e => match e with
                    | Edit f => password f =? ""
                    | _ => true
                    end) es.

(** The revision without the error parser: at most one login or navigation
    awaited, and the flag raised exactly while one is. *)
Definition pending_flag (s : LoginComponentPlain.system) : Prop :=
  length (LoginComponentPlain.outstanding s) + LoginComponentPlain.navigating s <= 1
  /\ (LoginComponentPlain.loading (LoginComponentPlain.comp s) = true
      <-> length (LoginComponentPlain.outstanding s)
          + LoginComponentPlain.navigating s = 1).

Definition plain_credentials : LoginComponentPlain.credentials :=
  {| LoginComponentPlain.username := "joao";
     LoginComponentPlain.email := "";
     LoginComponentPlain.password := "senhaSegura" |}.

(** Every notification that expires has its timer pending. *)
Definition timers_cover (s : NotificationService.service) : Prop :=
  forall n, In n (NotificationService.notifications s) ->
            NotificationService.expires n = true ->
            exists d, In (NotificationService.id n, d) (NotificationService.timers s).

Definition sample_notification (i : string) : NotificationService.Notification :=
  {| NotificationService.id := i;
     NotificationService.type := NotificationService.Error;
     NotificationService.title := "Erro";
     NotificationService.message := "Email inválido";
     NotificationService.duration := Some (NotificationService.ms 5000) |}.

Definition sample_service : NotificationService.service :=
  {| NotificationService.notifications :=
       [sample_notification "a"; sample_notification "b"];
     NotificationService.timers := [] |}.

(** An [error] made with the default duration and an [info] made with a
    duration of zero, which never expires. *)
Definition expiring_notification : NotificationService.Notification :=
  {| NotificationService.id := "a";
     NotificationService.type := NotificationService.Error;
     NotificationService.title := "Erro";
     NotificationService.message := "Email inválido";
     NotificationService.duration := Some (NotificationService.ms 5000) |}.

Definition sticky_notification : NotificationService.Notification :=
  {| NotificationService.id := "b";
     NotificationService.type := NotificationService.Info;
     NotificationService.title := "Aviso";
     NotificationService.message := "Sessão iniciada";
     NotificationService.duration := Some (NotificationService.ms 0) |}.

Definition sample_events : list NotificationService.event :=
  [NotificationService.Notify NotificationService.Error "a" "Erro"
     "Email inválido" None;
   NotificationService.Notify NotificationService.Info "b" "Aviso"
     "Sessão iniciada" (Some (NotificationService.ms 0))].

Definition sample_events_service : NotificationService.service :=
  {| NotificationService.notifications :=
       [expiring_notification; sticky_notification];
     NotificationService.timers := [("a", NotificationService.ms 5000)] |}.

(** ** The runtime *)

Lemma typeof_string v : typeof v = "string" <-> exists s, v = VStr s.
Proof.
  split.
  - destruct v; simpl; try discriminate. eauto.
  - intros [s ->]. reflexivity.
Qed.

Lemma typeof_eqb_string v :
  (typeof v =? "string") = match v with VStr _ => true | _ => false end.
Proof. destruct v; reflexivity. Qed.

Lemma ToBoolean_VStr s : ToBoolean (VStr s) = true <-> s <> "".
Proof.
  simpl. rewrite negb_true_iff. split.
  - intros H ->. discriminate.
  - intros H. apply String.eqb_neq. exact H.
Qed.

Lemma JSON_parse_VStr s :
  JSON_parse (VStr s) =
  match JSON.parse s with Some v => Return v | None => Throw SyntaxError end.
Proof. reflexivity. Qed.


(** A string always coerces, to itself. *)
Lemma String_VStr s : String_ (VStr s) = Return (VStr s).
Proof. reflexivity. Qed.

(** [OptGet] only finds something on a value that has properties. *)
Lemma OptGet_Get v k : OptGet v k <> VUndefined -> OptGet v k = Get v k.
Proof. destruct v; simpl; congruence. Qed.

Lemma GetV_Get v k : Get v k <> VUndefined -> GetV v k = Return (Get v k).
Proof. destruct v; simpl; congruence. Qed.

(** [Number::toString] on [0.1], [1e21], [123456789012345678901],
    [5e-324], [-1.5] and [1e-7]. *)
Example Number_to_string_samples :
  map (fun '(neg, m, e) => Number.to_string (Number.of_decimal neg m e))
      [(false, 1, -1); (false, 1, 21); (false, 123456789012345678901, 0);
       (false, 5, -324); (true, 15, -1); (false, 1, -7)]%Z
  = ["0.1"; "1e+21"; "123456789012345680000"; "5e-324"; "-1.5"; "1e-7"].
Proof. vm_compute. reflexivity. Qed.

(** [JSON.parse] on [[1, "a\u00e1", {"k": null}]], with the escape decoded
    to the two bytes of its UTF-8 encoding. *)
Example JSON_parse_sample :
  JSON.parse ("[1, " ++ q ++ "a\u00e1" ++ q ++ ", {" ++ q ++ "k" ++ q ++ ": null}]")
  = Some (VArr [VNum (Number.of_decimal false 1 0); VStr "aá";
                VObj [("k", VNull)]]).
Proof. vm_compute. reflexivity. Qed.

(** Texts that are not JSON: a bare word, a trailing comma, a leading zero,
    an unquoted key, two values. *)
Example JSON_parse_rejects :
  map JSON.parse ["Email"; "[1,]"; "01"; "{a:1}"; "1 2"; "-"; "[1"]
  = [None; None; None; None; None; None; None].
Proof. vm_compute. reflexivity. Qed.

(** A repeated key: the later member is the one that is read. *)
Example JSON_parse_repeated_key :
  (fun v => Get v "a") <$>
    JSON.parse ("{" ++ q ++ "a" ++ q ++ ":1," ++ q ++ "a" ++ q ++ ":true}")
  = Some (VBool true).
Proof. vm_compute. reflexivity. Qed.

(** ** Examples of the specification *)

Example extractMessage_plain :
  extractMessage (VStr "Email já cadastrado") = Return (VStr "Email já cadastrado").
Proof. vm_compute. reflexivity. Qed.

Example extractMessage_json_message :
  extractMessage (VStr json_message) = Return (VStr "Email inválido").
Proof. vm_compute. reflexivity. Qed.

Example extractMessage_object_message :
  extractMessage (VObj [("message", VStr "Senha fraca")]) = Return (VStr "Senha fraca").
Proof. vm_compute. reflexivity. Qed.

Example extractMessage_number :
  extractMessage (VNum (Number.of_decimal false 42 0)) = Return (VStr "42").
Proof. vm_compute. reflexivity. Qed.

Example extractMessage_array :
  extractMessage (VArr [VStr "a"; VNull; VBool true]) = Return (VStr "a,,true").
Proof. vm_compute. reflexivity. Qed.

(** What [submit] hands over after a failed login whose body is JSON. *)
Example extractMessage_login_error :
  extractMessage (VError "Error" json_message) = Return (VStr "Email inválido").
Proof. vm_compute. reflexivity. Qed.

(** ** The error normalizer *)

(** [extractMessage] is the block under the outer [try], guarded by the
    handler of the outer [catch]. *)
Lemma extractMessage_unfold error :
  extractMessage error =
  try_catch
    (match working_object error with
     | Returned v => Return v
     | Working errorObj => from_working errorObj error
     end)
    (last_resort error).
Proof. reflexivity. Qed.

(** The guard of step 4 holds exactly for a non-empty array. *)
Lemma errors_guard errorObj :
  let errors := OptGet errorObj "errors" in
  ToBoolean errors && Array_isArray errors && (0 <? Array_length errors)%nat = true
  <-> exists first rest, errors = VArr (first :: rest).
Proof.
  simpl. split.
  - destruct (OptGet errorObj "errors") as [| | | | |[|first rest]| |];
      simpl; try discriminate; try (rewrite andb_false_r; discriminate).
    eauto.
  - intros (first & rest & ->). reflexivity.
Qed.

Lemma errors_guard_false errorObj :
  (forall first rest, OptGet errorObj "errors" <> VArr (first :: rest)) ->
  let errors := OptGet errorObj "errors" in
  ToBoolean errors && Array_isArray errors && (0 <? Array_length errors)%nat = false.
Proof.
  intros H. apply not_true_is_false. intros G.
  apply errors_guard in G as (first & rest & G). exact (H _ _ G).
Qed.

(** Without a non-empty [errors] array, steps 5, 6 and the fallback. *)
Lemma from_working_no_errors errorObj error :
  (forall first rest, OptGet errorObj "errors" <> VArr (first :: rest)) ->
  from_working errorObj error =
  if ToBoolean (OptGet errorObj "message")
     && (typeof (OptGet errorObj "message") =? "string")
  then Return (OptGet errorObj "message")
  else if ToBoolean (OptGet errorObj "error")
          && (typeof (OptGet errorObj "error") =? "string")
  then Return (OptGet errorObj "error")
  else String_ error.
Proof.
  intros H. unfold from_working.
  rewrite (errors_guard_false errorObj H). reflexivity.
Qed.

(** *** Where the result is a string, and where it is not *)

Lemma String_typeof v r : String_ v = Return r -> typeof r = "string".
Proof.
  unfold String_. destruct (ToString v); simpl; [| discriminate].
  intros [= <-]. reflexivity.
Qed.

Lemma last_resort_typeof error r :
  last_resort error = Return r -> typeof r = "string".
Proof.
  unfold last_resort. destruct (typeof error =? "string") eqn:Ht.
  - intros [= <-]. apply String.eqb_eq. exact Ht.
  - apply String_typeof.
Qed.

Lemma working_object_returned error r :
  working_object error = Returned r -> typeof r = "string".
Proof.
  unfold working_object. destruct (typeof error =? "string") eqn:Ht.
  - destruct (JSON_parse error); [discriminate |].
    intros [= <-]. apply String.eqb_eq. exact Ht.
  - destruct (ToBoolean (OptGet error "message")); simpl; [| discriminate].
    destruct (typeof (Get error "message") =? "string") eqn:Hm; [| discriminate].
    destruct (JSON_parse (Get error "message")); [discriminate |].
    intros [= <-]. apply String.eqb_eq. exact Hm.
Qed.

(** The first element read as the source reads it, once it is known to
    have properties. *)
Lemma first_error_message_defined first :
  first <> VUndefined -> first <> VNull ->
  first_error_message first =
  let field := Get first "field" in
  let message := Get first "message" in
  if ToBoolean field && ToBoolean message then
    f <- ToString field ;; m <- ToString message ;;
    Return (VStr (f ++ ": " ++ m))
  else if ToBoolean message then Return message
  else String_ first.
Proof.
  intros Hu Hn. unfold first_error_message, and_then.
  assert (HG : forall k, GetV first k = Return (Get first k))
    by (intros k; destruct first; congruence || reflexivity).
  rewrite !HG. cbv zeta.
  generalize (Get first "field") (Get first "message"). intros fld msg.
  destruct (ToBoolean fld) eqn:Hf, (ToBoolean msg) eqn:Hm;
    simpl; rewrite ?Hf, ?Hm; simpl; rewrite ?Hf, ?Hm; reflexivity.
Qed.

Lemma first_error_message_typeof first r :
  first_error_message first = Return r ->
  typeof r = "string" \/ (r = Get first "message" /\ ToBoolean r = true).
Proof.
  destruct (first_error_message first) as [r' | e] eqn:Hr; [| discriminate].
  intros [= ->].
  assert (Hu : first <> VUndefined) by (intros ->; discriminate).
  assert (Hn : first <> VNull) by (intros ->; discriminate).
  rewrite (first_error_message_defined first Hu Hn) in Hr. cbv zeta in Hr.
  destruct (ToBoolean (Get first "field") && ToBoolean (Get first "message")).
  - destruct (ToString (Get first "field")); [| discriminate].
    destruct (ToString (Get first "message")); [| discriminate].
    injection Hr as <-. left. reflexivity.
  - destruct (ToBoolean (Get first "message")) eqn:Hm.
    + injection Hr as <-. right. split; [reflexivity | exact Hm].
    + left. exact (String_typeof _ _ Hr).
Qed.

(** [extractMessage] returns on every input whose coercion to a string
    does not throw, and so on every primitive, array of primitives, [Error]
    and object without an own [toString]. *)
Lemma extractMessage_returns error s :
  ToString error = Return s -> exists v, extractMessage error = Return v.
Proof.
  intros Hs. unfold extractMessage, try_catch.
  destruct (match working_object error with
            | Returned v => Return v
            | Working errorObj => from_working errorObj error
            end) as [v | e]; [eauto |].
  unfold last_resort, String_. rewrite Hs.
  destruct (typeof error =? "string"); simpl; eauto.
Qed.

(** What [extractMessage] returns is a string, except on one path: the
    truthy [message] of the first element of [errors], handed back as it
    is when that element has no truthy [field]. *)
Lemma extractMessage_string_or_first_message error v :
  extractMessage error = Return v ->
  typeof v = "string"
  \/ exists errorObj first rest,
       working_object error = Working errorObj
       /\ OptGet errorObj "errors" = VArr (first :: rest)
       /\ v = Get first "message"
       /\ ToBoolean v = true.
Proof.
  unfold extractMessage. destruct (working_object error) as [r | errorObj] eqn:Hw.
  - simpl. intros [= <-]. left. exact (working_object_returned error r Hw).
  - unfold from_working.
    destruct (ToBoolean (OptGet errorObj "errors")
              && Array_isArray (OptGet errorObj "errors")
              && (0 <? Array_length (OptGet errorObj "errors"))%nat) eqn:Hg.
    + apply errors_guard in Hg as (first & rest & He). rewrite He. simpl Array_at.
      destruct (first_error_message first) as [r | e] eqn:Hf; simpl.
      * intros [= <-].
        destruct (first_error_message_typeof first r Hf) as [Ht | [Hr Hb]];
          [left; exact Ht |].
        right. exists errorObj, first, rest. repeat split; assumption.
      * intros H. left. exact (last_resort_typeof error v H).
    + destruct (ToBoolean (OptGet errorObj "message")
                && (typeof (OptGet errorObj "message") =? "string")) eqn:Hm.
      { simpl. intros [= <-]. left.
        apply andb_true_iff in Hm as [_ Hm]. apply String.eqb_eq. exact Hm. }
      destruct (ToBoolean (OptGet errorObj "error")
                && (typeof (OptGet errorObj "error") =? "string")) eqn:Herr.
      { simpl. intros [= <-]. left.
        apply andb_true_iff in Herr as [_ Herr]. apply String.eqb_eq. exact Herr. }
      destruct (String_ error) as [r | e] eqn:Hs; simpl.
      * intros [= <-]. left. exact (String_typeof error r Hs).
      * intros H. left. exact (last_resort_typeof error v H).
Qed.

(** C1, at its failing inputs: [extractMessage] hands back the boolean
    [true], not a string, for the JSON text [{"errors":[{"message":true}]}],
    be it passed as a string or as the message of an [Error], and it
    throws for an object with an own member named [toString]. *)
Theorem extractMessage_not_always_a_string :
  extractMessage (VStr json_untyped_message) = Return (VBool true)
  /\ extractMessage (VError "Error" json_untyped_message) = Return (VBool true)
  /\ extractMessage (VObj [("toString", VNull)]) = Throw TypeError.
Proof. repeat split; vm_compute; reflexivity. Qed.

(** C3: a string that is not valid JSON is returned unchanged. *)
Theorem extractMessage_not_json (s : string) :
  JSON.parse s = None ->
  extractMessage (VStr s) = Return (VStr s).
Proof.
  intros H. unfold extractMessage, working_object.
  rewrite typeof_eqb_string, JSON_parse_VStr, H. reflexivity.
Qed.

Lemma extractMessage_not_json_witness :
  JSON.parse "Email já cadastrado" = None
  /\ extractMessage (VStr "Email já cadastrado") = Return (VStr "Email já cadastrado").
Proof.
  split; [vm_compute; reflexivity |].
  apply (extractMessage_not_json "Email já cadastrado"). vm_compute. reflexivity.
Defined.

(** C8: when [extractMessage x] is a string that is not valid JSON,
    passing it through [extractMessage] again returns it unchanged. *)
Theorem extractMessage_idempotent (x : value) (s : string) :
  extractMessage x = Return (VStr s) ->
  JSON.parse s = None ->
  (y <- extractMessage x ;; extractMessage y) = extractMessage x.
Proof.
  intros Hx Hs. rewrite Hx. simpl.
  unfold extractMessage, working_object.
  rewrite typeof_eqb_string, JSON_parse_VStr, Hs. reflexivity.
Qed.

Lemma extractMessage_idempotent_witness :
  extractMessage (VObj [("error", VStr "Servidor indisponível")])
  = Return (VStr "Servidor indisponível")
  /\ JSON.parse "Servidor indisponível" = None
  /\ (y <- extractMessage (VObj [("error", VStr "Servidor indisponível")]) ;;
      extractMessage y)
     = extractMessage (VObj [("error", VStr "Servidor indisponível")]).
Proof.
  split; [vm_compute; reflexivity |].
  split; [vm_compute; reflexivity |].
  apply (extractMessage_idempotent _ "Servidor indisponível");
    vm_compute; reflexivity.
Defined.

(** Steps 1 to 3 on an input that is not a string and carries a non-empty
    string under [message]. *)
Lemma working_object_message error m :
  typeof error <> "string" ->
  OptGet error "message" = VStr m ->
  m <> "" ->
  working_object error =
  match JSON.parse m with
  | Some parsed => Working parsed
  | None => Returned (VStr m)
  end.
Proof.
  intros Ht Hm Hne. unfold working_object.
  apply String.eqb_neq in Ht. rewrite Ht.
  assert (HG : Get error "message" = VStr m).
  { rewrite <- Hm. symmetry. apply OptGet_Get. rewrite Hm. discriminate. }
  rewrite Hm, HG. simpl ToBoolean. simpl typeof.
  apply String.eqb_neq in Hne. rewrite Hne. simpl.
  rewrite JSON_parse_VStr. destruct (JSON.parse m); reflexivity.
Qed.

(** The answer drawn from a first element with non-empty strings under
    [field] and [message]. *)
Lemma first_error_message_both first f m :
  Get first "field" = VStr f ->
  Get first "message" = VStr m ->
  f <> "" -> m <> "" ->
  first_error_message first = Return (VStr (f ++ ": " ++ m)).
Proof.
  intros Hf Hm Hfne Hmne. unfold first_error_message, and_then.
  rewrite !GetV_Get by (rewrite ?Hf, ?Hm; discriminate).
  rewrite Hf, Hm. simpl.
  apply String.eqb_neq in Hfne, Hmne. rewrite Hfne, Hmne. simpl.
  rewrite Hmne. reflexivity.
Qed.

(** C2, as the code has it: with a non-empty [errors] array in the working
    object, the result is drawn from the first element alone whenever
    handling that element does not raise, and it is ["<field>: <message>"]
    whenever the first element carries non-empty strings under [field] and
    [message]; the elements after the first appear in neither. *)
Theorem extractMessage_first_error
    (error errorObj first : value) (rest : list value) :
  working_object error = Working errorObj ->
  OptGet errorObj "errors" = VArr (first :: rest) ->
  (forall r, first_error_message first = Return r ->
             extractMessage error = Return r)
  /\ (forall f m, Get first "field" = VStr f ->
                  Get first "message" = VStr m ->
                  f <> "" -> m <> "" ->
                  extractMessage error = Return (VStr (f ++ ": " ++ m))).
Proof.
  intros Hw He.
  assert (Hx : extractMessage error =
               try_catch (first_error_message first) (last_resort error)).
  { unfold extractMessage. rewrite Hw. unfold from_working. rewrite He.
    reflexivity. }
  split.
  - intros r Hr. rewrite Hx, Hr. reflexivity.
  - intros f m Hf Hm Hfne Hmne.
    rewrite Hx, (first_error_message_both first f m Hf Hm Hfne Hmne).
    reflexivity.
Qed.

Lemma extractMessage_first_error_witness :
  working_object validation_errors = Working validation_errors
  /\ OptGet validation_errors "errors"
     = VArr [VObj [("field", VStr "email"); ("message", VStr "Email inválido")];
             VObj [("field", VStr "password"); ("message", VStr "Senha fraca")]]
  /\ extractMessage validation_errors = Return (VStr "email: Email inválido").
Proof.
  split; [vm_compute; reflexivity |].
  split; [vm_compute; reflexivity |].
  refine (proj2 (extractMessage_first_error validation_errors validation_errors
                   (VObj [("field", VStr "email"); ("message", VStr "Email inválido")])
                   [VObj [("field", VStr "password"); ("message", VStr "Senha fraca")]]
                   _ _) "email" "Email inválido" _ _ _ _);
    try (vm_compute; reflexivity); discriminate.
Defined.

(** C2 as stated fails twice.  An empty string under [field] is a string
    attribute, yet the result is the message alone.  And two texts whose
    [errors] arrays share the first element [null] and differ in the second
    are each returned whole, so the second element shows in the result. *)
Lemma extractMessage_first_error_counterexample :
  (working_object empty_field_error = Working empty_field_error
   /\ OptGet empty_field_error "errors"
      = VArr [VObj [("field", VStr ""); ("message", VStr "Email inválido")]]
   /\ extractMessage empty_field_error = Return (VStr "Email inválido")
   /\ extractMessage empty_field_error
      <> Return (VStr ("" ++ ": " ++ "Email inválido")))
  /\ (working_object (VStr (json_null_first "1"))
      = Working (VObj [("errors", VArr [VNull; VNum (Number.of_decimal false 1 0)])])
      /\ working_object (VStr (json_null_first "2"))
         = Working (VObj [("errors", VArr [VNull; VNum (Number.of_decimal false 2 0)])])
      /\ extractMessage (VStr (json_null_first "1"))
         <> extractMessage (VStr (json_null_first "2"))).
Proof.
  repeat split; try (vm_compute; reflexivity); vm_compute; discriminate.
Qed.




(** C5, as the code has it: a non-empty string under [message] that is not
    valid JSON is returned as it is from an input that is not a string, and
    so is a non-empty string under [message] of a working object that has
    no non-empty [errors] array. *)
Theorem extractMessage_message :
  (forall (error : value) (m : string),
      typeof error <> "string" ->
      OptGet error "message" = VStr m ->
      m <> "" ->
      JSON.parse m = None ->
      extractMessage error = Return (VStr m))
  /\ (forall (error errorObj : value) (m : string),
         working_object error = Working errorObj ->
         (forall first rest, OptGet errorObj "errors" <> VArr (first :: rest)) ->
         OptGet errorObj "message" = VStr m ->
         m <> "" ->
         extractMessage error = Return (VStr m)).
Proof.
  split.
  - intros error m Ht Hm Hne Hp. unfold extractMessage.
    rewrite (working_object_message error m Ht Hm Hne), Hp. reflexivity.
  - intros error errorObj m Hw He Hm Hne. unfold extractMessage.
    rewrite Hw, (from_working_no_errors errorObj error He), Hm.
    simpl. apply String.eqb_neq in Hne. rewrite Hne. reflexivity.
Qed.

Lemma extractMessage_message_witness :
  (typeof (VError "Error" "Conta desativada") <> "string"
   /\ OptGet (VError "Error" "Conta desativada") "message" = VStr "Conta desativada"
   /\ "Conta desativada" <> ""
   /\ JSON.parse "Conta desativada" = None
   /\ extractMessage (VError "Error" "Conta desativada")
      = Return (VStr "Conta desativada"))
  /\ (working_object (VStr json_message)
      = Working (VObj [("message", VStr "Email inválido")])
      /\ OptGet (VObj [("message", VStr "Email inválido")]) "message"
         = VStr "Email inválido"
      /\ extractMessage (VStr json_message) = Return (VStr "Email inválido")).
Proof.
  split.
  - split; [discriminate |].
    split; [reflexivity |].
    split; [discriminate |].
    split; [vm_compute; reflexivity |].
    apply (proj1 extractMessage_message (VError "Error" "Conta desativada")
             "Conta desativada");
      [discriminate | reflexivity | discriminate | vm_compute; reflexivity].
  - split; [vm_compute; reflexivity |].
    split; [reflexivity |].
    apply (proj2 extractMessage_message (VStr json_message)
             (VObj [("message", VStr "Email inválido")]) "Email inválido");
      [vm_compute; reflexivity | discriminate | reflexivity | discriminate].
Defined.

(** C5 as stated fails on the empty string: [{message: ""}] is not a
    string, its [message] is a string that is not valid JSON, it is its own
    working object without an [errors] array, and the result is the
    coercion of the object instead of the empty message. *)
Lemma extractMessage_message_counterexample :
  typeof empty_message_error <> "string"
  /\ OptGet empty_message_error "message" = VStr ""
  /\ JSON.parse "" = None
  /\ working_object empty_message_error = Working empty_message_error
  /\ OptGet empty_message_error "errors" = VUndefined
  /\ extractMessage empty_message_error = Return (VStr "[object Object]")
  /\ extractMessage empty_message_error <> Return (VStr "").
Proof.
  repeat split; try (vm_compute; reflexivity); vm_compute; discriminate.
Qed.

(** C6, as the code has it: with no non-empty [errors] array and no string
    under [message], a non-empty string under [error] of the working object
    is the result; the example of the specification. *)
Theorem extractMessage_error_field :
  (forall (error errorObj : value) (e : string),
      working_object error = Working errorObj ->
      (forall first rest, OptGet errorObj "errors" <> VArr (first :: rest)) ->
      typeof (OptGet errorObj "message") <> "string" ->
      OptGet errorObj "error" = VStr e ->
      e <> "" ->
      extractMessage error = Return (VStr e))
  /\ extractMessage (VObj [("error", VStr "Servidor indisponível")])
     = Return (VStr "Servidor indisponível").
Proof.
  split; [| vm_compute; reflexivity].
  intros error errorObj e Hw He Hm Herr Hne. unfold extractMessage.
  rewrite Hw, (from_working_no_errors errorObj error He), Herr.
  apply String.eqb_neq in Hm. rewrite Hm, andb_false_r.
  simpl. apply String.eqb_neq in Hne. rewrite Hne. reflexivity.
Qed.

Lemma extractMessage_error_field_witness :
  working_object (VStr json_error) = Working (VObj [("error", VStr "Email inválido")])
  /\ typeof (OptGet (VObj [("error", VStr "Email inválido")]) "message") <> "string"
  /\ OptGet (VObj [("error", VStr "Email inválido")]) "error" = VStr "Email inválido"
  /\ extractMessage (VStr json_error) = Return (VStr "Email inválido").
Proof.
  split; [vm_compute; reflexivity |].
  split; [discriminate |].
  split; [reflexivity |].
  apply (proj1 extractMessage_error_field (VStr json_error)
           (VObj [("error", VStr "Email inválido")]) "Email inválido");
    [vm_compute; reflexivity | discriminate | discriminate | reflexivity
    | discriminate].
Defined.

(** C6 as stated fails on the empty string: [{error: ""}] is its own
    working object, has neither [errors] nor [message], carries a string
    under [error], and the result is the coercion of the object. *)
Lemma extractMessage_error_field_counterexample :
  working_object empty_error_error = Working empty_error_error
  /\ OptGet empty_error_error "errors" = VUndefined
  /\ OptGet empty_error_error "message" = VUndefined
  /\ OptGet empty_error_error "error" = VStr ""
  /\ extractMessage empty_error_error = Return (VStr "[object Object]")
  /\ extractMessage empty_error_error <> Return (VStr "").
Proof.
  repeat split; try (vm_compute; reflexivity); vm_compute; discriminate.
Qed.

(** A coercion that throws belongs to a value that is not a string. *)
Lemma String_throws error e :
  String_ error = Throw e -> last_resort error = Throw e.
Proof.
  intros H. unfold last_resort. rewrite typeof_eqb_string.
  destruct error; exact H.
Qed.




(** ** The token store *)

Example login_stores_token :
  getToken (snd (login (Responded {| status := 200; body := json_token |}) ∅))
  = Some "abc".
Proof. vm_compute. reflexivity. Qed.

Example login_rejects_401 :
  fst (login (Responded {| status := 401; body := json_message |}) ∅)
  = Throw (Thrown (VError "Error" json_message)).
Proof. vm_compute. reflexivity. Qed.

Example login_rejects_empty_body :
  fst (login (Responded {| status := 500; body := "" |}) ∅)
  = Throw (Thrown (VError "Error" "Login failed: 500")).
Proof. vm_compute. reflexivity. Qed.

(** From the rejected login to the text shown: the [Error] thrown on a 401
    whose body is JSON, handed to the normalizer by [submit]. *)
Example login_failure_displayed :
  step {| comp := {| form := sample_credentials; loading := true;
                     error := VNull; success := false |};
          outstanding := [sample_credentials];
          navigating := 0 |}
       (Rejected 0 (VError "Error" json_message))
  = Some {| comp := {| form := sample_credentials; loading := false;
                       error := VStr "Email inválido"; success := false |};
            outstanding := [];
            navigating := 0 |}.
Proof. vm_compute. reflexivity. Qed.

Lemma logout_getToken ls : getToken (logout ls) = None.
Proof. apply lookup_delete_eq. Qed.

(** C10: [login] leaves the storage as it was unless the response is a 2xx
    whose parsed body carries a truthy [token], in which case the storage
    differs by one [setItem] on [auth_token]; and on a 2xx whose parsed body
    has no truthy [token], [login] returns the parsed body and the stored
    token is what it was. *)
Theorem login_token_storage :
  (forall (net : fetched) (ls : storage),
      snd (login net ls) = ls
      \/ exists resp data token,
           net = Responded resp
           /\ ok resp = true
           /\ JSON.parse (body resp) = Some data
           /\ ToBoolean (OptGet data "token") = true
           /\ ToString (Get data "token") = Return token
           /\ login net ls = (Return data, setItem "auth_token" token ls))
  /\ (forall (resp : response) (data : value) (ls : storage),
         ok resp = true ->
         JSON.parse (body resp) = Some data ->
         ToBoolean (OptGet data "token") = false ->
         login (Responded resp) ls = (Return data, ls)
         /\ getToken (snd (login (Responded resp) ls)) = getToken ls).
Proof.
  split.
  - intros [resp |] ls; [| left; reflexivity].
    unfold login. destruct (ok resp) eqn:Hok; [| left; reflexivity].
    rewrite JSON_parse_VStr. simpl negb. cbv iota.
    destruct (JSON.parse (body resp)) as [data |] eqn:Hp; [| left; reflexivity].
    destruct (ToBoolean (OptGet data "token")) eqn:Ht; [| left; reflexivity].
    destruct (ToString (Get data "token")) as [token | e] eqn:Hs;
      [| left; reflexivity].
    right. exists resp, data, token. repeat split; assumption.
  - intros resp data ls Hok Hp Ht.
    assert (H : login (Responded resp) ls = (Return data, ls)).
    { unfold login. rewrite Hok, JSON_parse_VStr, Hp. simpl. rewrite Ht.
      reflexivity. }
    rewrite H. split; reflexivity.
Qed.

Lemma login_token_storage_witness :
  ok {| status := 200; body := json_no_token |} = true
  /\ JSON.parse json_no_token
     = Some (VObj [("expiresIn", VNum (Number.of_decimal false 3600 0))])
  /\ ToBoolean (OptGet (VObj [("expiresIn", VNum (Number.of_decimal false 3600 0))])
                       "token") = false
  /\ login (Responded {| status := 200; body := json_no_token |})
           (setItem "auth_token" "old" ∅)
     = (Return (VObj [("expiresIn", VNum (Number.of_decimal false 3600 0))]),
        setItem "auth_token" "old" ∅).
Proof.
  split; [reflexivity |].
  split; [vm_compute; reflexivity |].
  split; [reflexivity |].
  apply (proj2 login_token_storage {| status := 200; body := json_no_token |}
           (VObj [("expiresIn", VNum (Number.of_decimal false 3600 0))])
           (setItem "auth_token" "old" ∅));
    [reflexivity | vm_compute; reflexivity | reflexivity].
Defined.

(** ** The credential submitter *)

Lemma single_request_init f : single_request (init f).
Proof. split; simpl; [lia | congruence]. Qed.

Lemma single_request_settled (cs : list credentials) (i : nat) c :
  length cs <= 1 -> cs !! i = Some c -> delete i cs = [].
Proof.
  destruct cs as [| c0 [| c1 cs]]; simpl; intros Hl Hi.
  - discriminate.
  - destruct i; [reflexivity | discriminate].
  - lia.
Qed.

(** One event keeps the invariant, if it is neither a [submit()] called
    while the flag is raised nor a navigation that fails while a login is
    outstanding. *)
Lemma single_request_step s e s' :
  single_request s ->
  (e = Submit -> loading (comp s) = false) ->
  (forall err, e = NavigationFailed err -> outstanding s = []) ->
  step s e = Some s' ->
  single_request s'.
Proof.
  intros [Hlen Hflag] Hgate Hnav Hstep.
  destruct e as [f | | i | i err | | err]; simpl in Hstep.
  - inversion Hstep; subst. split; simpl; assumption.
  - inversion Hstep; subst. specialize (Hgate eq_refl).
    assert (Hnone : outstanding s = []).
    { destruct (outstanding s) eqn:Ho; [reflexivity |].
      rewrite Hflag in Hgate; [discriminate | congruence]. }
    unfold submit. destruct (invalid (form (comp s))).
    + split; assumption.
    + simpl. rewrite Hnone. split; simpl; [lia | reflexivity].
  - destruct (outstanding s !! i) as [c |] eqn:Hi; [| discriminate].
    inversion Hstep; subst. simpl.
    rewrite (single_request_settled _ _ _ Hlen Hi).
    split; simpl; [lia | congruence].
  - destruct (outstanding s !! i) as [c |] eqn:Hi; [| discriminate].
    inversion Hstep; subst. simpl.
    rewrite (single_request_settled _ _ _ Hlen Hi).
    split; simpl; [lia | congruence].
  - destruct (navigating s); [discriminate |].
    inversion Hstep; subst. split; simpl; assumption.
  - destruct (navigating s); [discriminate |].
    inversion Hstep; subst. rewrite (Hnav err eq_refl).
    split; simpl; [lia | congruence].
Qed.

Lemma single_request_run es : forall s s',
  single_request s ->
  gated s es = true ->
  failures_apart s es = true ->
  run s es = Some s' ->
  single_request s'.
Proof.
  induction es as [| e es IH]; simpl; intros s s' Hinv Hg Hn Hrun.
  - inversion Hrun; subst. exact Hinv.
  - apply andb_true_iff in Hg as [Hgate Hg].
    apply andb_true_iff in Hn as [Hnav Hn].
    destruct (step s e) as [s1 |] eqn:Hstep; [| discriminate].
    apply (IH s1 s'); [| exact Hg | exact Hn | exact Hrun].
    apply (single_request_step s e s1 Hinv); [| | exact Hstep].
    + intros ->. apply negb_true_iff. exact Hgate.
    + intros err ->. destruct (outstanding s); [reflexivity | discriminate].
Qed.

(** C9, as the code has it: [submit()] does not test the loading flag; on a
    valid form it raises the flag and issues one login, whatever the flag
    was.  In every run from the initial state in which [submit()] is only
    called while the flag is clear and no navigation fails while a login is
    outstanding, at most one login is outstanding at any time and the flag
    is raised while one is. *)
Theorem submit_single_request_when_gated :
  (forall s : system,
      invalid (form (comp s)) = false ->
      loading (comp (submit s)) = true
      /\ outstanding (submit s) = (outstanding s ++ [form (comp s)])%list)
  /\ (forall (f : credentials) (es : list event) (s : system),
         gated (init f) es = true ->
         failures_apart (init f) es = true ->
         run (init f) es = Some s ->
         length (outstanding s) <= 1
         /\ (outstanding s <> [] -> loading (comp s) = true)).
Proof.
  split.
  - intros s Hv. unfold submit. rewrite Hv. split; reflexivity.
  - intros f es s Hg Hn Hrun.
    exact (single_request_run es (init f) s (single_request_init f) Hg Hn Hrun).
Qed.

Lemma submit_single_request_when_gated_witness :
  gated (init sample_credentials) failed_navigation_run = true
  /\ failures_apart (init sample_credentials) failed_navigation_run = true
  /\ run (init sample_credentials) failed_navigation_run
     = Some {| comp := {| form := sample_credentials; loading := true;
                          error := VNull; success := true |};
               outstanding := [sample_credentials];
               navigating := 0 |}
  /\ length [sample_credentials] <= 1.
Proof.
  split; [vm_compute; reflexivity |].
  split; [vm_compute; reflexivity |].
  split; [vm_compute; reflexivity |].
  refine (proj1 (proj2 submit_single_request_when_gated sample_credentials
                   failed_navigation_run
                   {| comp := {| form := sample_credentials; loading := true;
                                 error := VNull; success := true |};
                      outstanding := [sample_credentials];
                      navigating := 0 |} _ _ _));
    vm_compute; reflexivity.
Defined.

(** C9 as stated fails: after one [submit()] the flag is raised and a login
    is outstanding; a second call to [submit()] issues a second login, and
    two are outstanding. *)
Lemma submit_reentrant_counterexample :
  run (init sample_credentials) [Submit]
  = Some {| comp := {| form := sample_credentials; loading := true;
                       error := VNull; success := false |};
            outstanding := [sample_credentials];
            navigating := 0 |}
  /\ run (init sample_credentials) [Submit; Submit]
     = Some {| comp := {| form := sample_credentials; loading := true;
                          error := VNull; success := false |};
               outstanding := [sample_credentials; sample_credentials];
               navigating := 0 |}.
Proof. split; vm_compute; reflexivity. Qed.

(** Why the navigation matters: the [catch] block that lowers the flag also
    catches a navigation that rejects.  When that happens while a second
    login is outstanding, the login is left outstanding with the flag
    lowered, and a third submission passes the gate. *)
Example navigation_failure_lowers_flag :
  gated (init sample_credentials)
        [Submit; Fulfilled 0; Submit; NavigationFailed (VStr "NG04002"); Submit]
  = true
  /\ failures_apart (init sample_credentials)
        [Submit; Fulfilled 0; Submit; NavigationFailed (VStr "NG04002"); Submit]
     = false
  /\ run (init sample_credentials)
         [Submit; Fulfilled 0; Submit; NavigationFailed (VStr "NG04002"); Submit]
     = Some {| comp := {| form := sample_credentials; loading := true;
                          error := VNull; success := true |};
               outstanding := [sample_credentials; sample_credentials];
               navigating := 0 |}.
Proof. repeat split; vm_compute; reflexivity. Qed.

(** * Further properties *)

(** ** The error normalizer, the remaining paths *)

Lemma extractMessage_returns_witness :
  ToString (VArr [VStr "a"; VNull; VBool true]) = Return "a,,true"
  /\ exists v, extractMessage (VArr [VStr "a"; VNull; VBool true]) = Return v.
Proof.
  split; [reflexivity |].
  apply (extractMessage_returns (VArr [VStr "a"; VNull; VBool true]) "a,,true").
  reflexivity.
Defined.

Lemma extractMessage_string_or_first_message_witness :
  extractMessage (VStr json_untyped_message) = Return (VBool true)
  /\ (typeof (VBool true) = "string"
      \/ exists errorObj first rest,
           working_object (VStr json_untyped_message) = Working errorObj
           /\ OptGet errorObj "errors" = VArr (first :: rest)
           /\ VBool true = Get first "message"
           /\ ToBoolean (VBool true) = true).
Proof.
  split; [vm_compute; reflexivity |].
  apply (extractMessage_string_or_first_message (VStr json_untyped_message)
           (VBool true)).
  vm_compute. reflexivity.
Defined.

(** With a non-empty [errors] array, the handler of the outer [catch] is
    all that stands between the first element and the result. *)
Lemma extractMessage_errors error errorObj first rest :
  working_object error = Working errorObj ->
  OptGet errorObj "errors" = VArr (first :: rest) ->
  extractMessage error = try_catch (first_error_message first) (last_resort error).
Proof.
  intros Hw He. unfold extractMessage. rewrite Hw. unfold from_working.
  rewrite He. reflexivity.
Qed.

Lemma truthy_defined v k :
  ToBoolean (Get v k) = true -> v <> VUndefined /\ v <> VNull.
Proof. destruct v; simpl; intros H; split; congruence. Qed.

(** A first element with a truthy [message] and no truthy [field]: the
    message is the result, as it is, whatever its type (lines 170-172). *)
Theorem extractMessage_first_error_message_only
    (error errorObj first : value) (rest : list value) :
  working_object error = Working errorObj ->
  OptGet errorObj "errors" = VArr (first :: rest) ->
  ToBoolean (Get first "field") = false ->
  ToBoolean (Get first "message") = true ->
  extractMessage error = Return (Get first "message").
Proof.
  intros Hw He Hf Hm.
  destruct (truthy_defined first "message" Hm) as [Hu Hn].
  rewrite (extractMessage_errors error errorObj first rest Hw He),
    (first_error_message_defined first Hu Hn).
  cbv zeta. rewrite Hf, Hm. reflexivity.
Qed.

Lemma extractMessage_first_error_message_only_witness :
  working_object (VObj [("errors", VArr [VObj [("message", VStr "Senha fraca")]])])
  = Working (VObj [("errors", VArr [VObj [("message", VStr "Senha fraca")]])])
  /\ extractMessage (VObj [("errors", VArr [VObj [("message", VStr "Senha fraca")]])])
     = Return (VStr "Senha fraca").
Proof.
  split; [reflexivity |].
  apply (extractMessage_first_error_message_only
           (VObj [("errors", VArr [VObj [("message", VStr "Senha fraca")]])])
           (VObj [("errors", VArr [VObj [("message", VStr "Senha fraca")]])])
           (VObj [("message", VStr "Senha fraca")]) []);
    reflexivity.
Defined.

(** A first element that has properties but no truthy [message] is
    coerced to a string as a whole (lines 174-175), and that coercion is the
    result whenever it does not throw: an [errors] array of plain texts
    shows the first text. *)
Theorem extractMessage_first_error_coerced
    (error errorObj first : value) (rest : list value) (s : string) :
  working_object error = Working errorObj ->
  OptGet errorObj "errors" = VArr (first :: rest) ->
  first <> VUndefined -> first <> VNull ->
  ToBoolean (Get first "message") = false ->
  ToString first = Return s ->
  extractMessage error = Return (VStr s).
Proof.
  intros Hw He Hu Hn Hm Hs.
  rewrite (extractMessage_errors error errorObj first rest Hw He),
    (first_error_message_defined first Hu Hn).
  cbv zeta. rewrite Hm, andb_false_r. unfold String_. rewrite Hs. reflexivity.
Qed.

Lemma extractMessage_first_error_coerced_witness :
  working_object (VObj [("errors", VArr [VStr "Email inválido"; VStr "Senha fraca"])])
  = Working (VObj [("errors", VArr [VStr "Email inválido"; VStr "Senha fraca"])])
  /\ extractMessage (VObj [("errors", VArr [VStr "Email inválido"; VStr "Senha fraca"])])
     = Return (VStr "Email inválido").
Proof.
  split; [reflexivity |].
  apply (extractMessage_first_error_coerced
           (VObj [("errors", VArr [VStr "Email inválido"; VStr "Senha fraca"])])
           (VObj [("errors", VArr [VStr "Email inválido"; VStr "Senha fraca"])])
           (VStr "Email inválido") [VStr "Senha fraca"] "Email inválido");
    try reflexivity; discriminate.
Defined.

(** A first element that is [null] or [undefined] makes the read of
    [firstError.field] throw, and the result is the answer of the outer
    [catch] (line 250): a string input as it came, any other input coerced
    to a string, whenever that coercion does not throw. *)
Theorem extractMessage_first_error_missing
    (error errorObj first : value) (rest : list value) :
  working_object error = Working errorObj ->
  OptGet errorObj "errors" = VArr (first :: rest) ->
  first = VNull \/ first = VUndefined ->
  (typeof error = "string" -> extractMessage error = Return error)
  /\ (typeof error <> "string" ->
      forall s, ToString error = Return s ->
                extractMessage error = Return (VStr s)).
Proof.
  intros Hw He Hf.
  assert (Hx : extractMessage error = last_resort error).
  { rewrite (extractMessage_errors error errorObj first rest Hw He).
    destruct Hf as [-> | ->]; reflexivity. }
  rewrite Hx. unfold last_resort. split.
  - intros Ht. apply String.eqb_eq in Ht. rewrite Ht. reflexivity.
  - intros Ht s Hs. apply String.eqb_neq in Ht. rewrite Ht.
    unfold String_. rewrite Hs. reflexivity.
Qed.

Lemma extractMessage_first_error_missing_witness :
  (working_object (VStr (json_null_first "1"))
   = Working (VObj [("errors", VArr [VNull; VNum (Number.of_decimal false 1 0)])])
   /\ typeof (VStr (json_null_first "1")) = "string"
   /\ extractMessage (VStr (json_null_first "1"))
      = Return (VStr (json_null_first "1")))
  /\ (working_object (VObj [("errors", VArr [VNull])])
      = Working (VObj [("errors", VArr [VNull])])
      /\ typeof (VObj [("errors", VArr [VNull])]) <> "string"
      /\ ToString (VObj [("errors", VArr [VNull])]) = Return "[object Object]"
      /\ extractMessage (VObj [("errors", VArr [VNull])])
         = Return (VStr "[object Object]")).
Proof.
  split.
  - split; [vm_compute; reflexivity |].
    split; [reflexivity |].
    refine (proj1 (extractMessage_first_error_missing (VStr (json_null_first "1"))
                     (VObj [("errors", VArr [VNull; VNum (Number.of_decimal false 1 0)])])
                     VNull [VNum (Number.of_decimal false 1 0)]
                     _ eq_refl (or_introl eq_refl)) eq_refl).
    vm_compute. reflexivity.
  - split; [reflexivity |].
    split; [discriminate |].
    split; [reflexivity |].
    apply (proj2 (extractMessage_first_error_missing
                    (VObj [("errors", VArr [VNull])])
                    (VObj [("errors", VArr [VNull])]) VNull []
                    eq_refl eq_refl (or_introl eq_refl)));
      [discriminate | reflexivity].
Defined.

(** A string that is valid JSON for something other than an object (a
    number, a quoted text, [true], [false], [null], an array) has none of
    the fields looked for and comes back unchanged (lines 88-97 and 230). *)
Theorem extractMessage_json_non_object (s : string) (parsed : value) :
  JSON.parse s = Some parsed ->
  (forall props, parsed <> VObj props) ->
  (forall name message, parsed <> VError name message) ->
  extractMessage (VStr s) = Return (VStr s).
Proof.
  intros Hp Hobj Herr. unfold extractMessage, working_object.
  rewrite typeof_eqb_string, JSON_parse_VStr, Hp.
  destruct parsed; try reflexivity.
  - destruct (Hobj props eq_refl).
  - destruct (Herr name message eq_refl).
Qed.

Lemma extractMessage_json_non_object_witness :
  JSON.parse "404" = Some (VNum (Number.of_decimal false 404 0))
  /\ extractMessage (VStr "404") = Return (VStr "404").
Proof.
  split; [vm_compute; reflexivity |].
  apply (extractMessage_json_non_object "404" (VNum (Number.of_decimal false 404 0)));
    [vm_compute; reflexivity | discriminate | discriminate].
Defined.

(** ** The token store, further *)

(** [login] touches no slot of the storage other than [auth_token]. *)
Theorem login_other_keys (net : fetched) (ls : storage) (k : string) :
  k <> "auth_token" ->
  getItem k (snd (login net ls)) = getItem k ls.
Proof.
  intros Hk. destruct net as [resp |]; [| reflexivity].
  unfold login. destruct (negb (ok resp)); [reflexivity |].
  destruct (JSON_parse (VStr (body resp))) as [data | e]; [| reflexivity].
  destruct (ToBoolean (OptGet data "token")); [| reflexivity].
  destruct (ToString (Get data "token")) as [token | e]; [| reflexivity].
  simpl. unfold getItem, setItem. apply lookup_insert_ne. congruence.
Qed.

Lemma login_other_keys_witness :
  "theme" <> "auth_token"
  /\ getItem "theme"
       (snd (login (Responded {| status := 200; body := json_token |})
                   (setItem "theme" "dark" ∅)))
     = getItem "theme" (setItem "theme" "dark" ∅).
Proof.
  split; [discriminate |].
  apply (login_other_keys (Responded {| status := 200; body := json_token |})
           (setItem "theme" "dark" ∅) "theme").
  discriminate.
Defined.

(** After a 2xx response whose body carries a truthy [token], [login]
    returns the body and [getToken] reads back the token as [setItem] stored
    it, that is coerced to a string (a text as it is, a number in decimal),
    whatever was stored before. *)
Theorem login_getToken (resp : response) (data : value) (t : string)
    (ls : storage) :
  ok resp = true ->
  JSON.parse (body resp) = Some data ->
  ToBoolean (OptGet data "token") = true ->
  ToString (Get data "token") = Return t ->
  fst (login (Responded resp) ls) = Return data
  /\ getToken (snd (login (Responded resp) ls)) = Some t.
Proof.
  intros Hok Hp Ht Hs.
  unfold login. rewrite Hok, JSON_parse_VStr, Hp. simpl negb. cbv iota.
  rewrite Ht, Hs. simpl.
  split; [reflexivity |]. unfold getToken, getItem, setItem.
  apply lookup_insert_eq.
Qed.

Lemma login_getToken_witness :
  ok {| status := 200; body := json_token |} = true
  /\ JSON.parse json_token
     = Some (VObj [("token", VStr "abc");
                   ("expiresIn", VNum (Number.of_decimal false 3600 0))])
  /\ getToken (snd (login (Responded {| status := 200; body := json_token |})
                          (setItem "auth_token" "old" ∅)))
     = Some "abc".
Proof.
  split; [reflexivity |].
  split; [vm_compute; reflexivity |].
  apply (login_getToken {| status := 200; body := json_token |}
           (VObj [("token", VStr "abc");
                  ("expiresIn", VNum (Number.of_decimal false 3600 0))])
           "abc" (setItem "auth_token" "old" ∅));
    [reflexivity | vm_compute; reflexivity | reflexivity | reflexivity].
Defined.

(** A token that is a number is stored as its decimal text. *)
Example login_stores_number_token :
  getToken (snd (login (Responded {| status := 200;
                                     body := "{" ++ q ++ "token" ++ q ++ ":12345}" |})
                       ∅))
  = Some "12345".
Proof. vm_compute. reflexivity. Qed.

(** [logout] empties the [auth_token] slot, leaves every other slot as it
    was, and changes nothing when called again. *)
Theorem logout_storage (ls : storage) :
  getToken (logout ls) = None
  /\ (forall k, k <> "auth_token" -> getItem k (logout ls) = getItem k ls)
  /\ logout (logout ls) = logout ls.
Proof.
  unfold getToken, logout, getItem, removeItem. split; [| split].
  - apply lookup_delete_eq.
  - intros k Hk. apply lookup_delete_ne. congruence.
  - apply delete_id. apply lookup_delete_eq.
Qed.

Lemma logout_storage_witness :
  "theme" <> "auth_token"
  /\ getItem "theme" (logout (setItem "auth_token" "abc" (setItem "theme" "dark" ∅)))
     = getItem "theme" (setItem "auth_token" "abc" (setItem "theme" "dark" ∅)).
Proof.
  split; [discriminate |].
  apply (proj1 (proj2 (logout_storage
                         (setItem "auth_token" "abc" (setItem "theme" "dark" ∅))))).
  discriminate.
Defined.

(** ** The login attempt *)

(** A coercion to a string throws nothing but a [TypeError]. *)
Lemma ToString_throws : forall (v : value) (e : exn),
  ToString v = Throw e -> e = TypeError.
Proof.
  fix IH 1. intros v e. destruct v as [| | [|] | x | s | elems | props | name message];
    simpl; try discriminate.
  - induction elems as [| x xs IHxs]; [discriminate |].
    assert (Hx : forall e', match x with
                            | VUndefined | VNull => Return ""
                            | _ => ToString x
                            end = Throw e' -> e' = TypeError).
    { intros e' H. apply (IH x e'). destruct x; try discriminate; exact H. }
    destruct (match x with
              | VUndefined | VNull => Return ""
              | _ => ToString x
              end) as [sx | ex] eqn:Hsx; simpl.
    + destruct xs as [| y ys]; [discriminate |].
      destruct ((fix join (l : list value) : completion string :=
                   match l with
                   | [] => Return ""
                   | e0 :: rest =>
                       s <- match e0 with
                            | VUndefined | VNull => Return ""
                            | _ => ToString e0
                            end ;;
                       match rest with
                       | [] => Return s
                       | _ :: _ => r <- join rest ;; Return (s ++ "," ++ r)
                       end
                   end) (y :: ys)) as [r | er] eqn:Hr; simpl; [discriminate |].
      intros [= <-]. apply IHxs. reflexivity.
    + intros [= <-]. apply Hx. reflexivity.
  - destruct (own_property props "toString"); [| discriminate].
    intros [= <-]. reflexivity.
Qed.

(** What [login] throws: the runtime's [TypeError] (no response, or a token
    that cannot be stored), its [SyntaxError] (a body that is not JSON), or
    the [Error] made from a response that is not a 2xx. *)
Lemma login_throws net ls e :
  fst (login net ls) = Throw e ->
  e = TypeError \/ e = SyntaxError
  \/ exists message, e = Thrown (VError "Error" message).
Proof.
  destruct net as [resp |]; [| simpl; intros [= <-]; auto].
  unfold login. destruct (negb (ok resp)).
  { simpl. intros [= <-]. eauto. }
  rewrite JSON_parse_VStr.
  destruct (JSON.parse (body resp)) as [data |]; [| simpl; intros [= <-]; auto].
  destruct (ToBoolean (OptGet data "token")); [| simpl; discriminate].
  destruct (ToString (Get data "token")) as [t | e'] eqn:Ht; [simpl; discriminate |].
  simpl. intros [= <-]. left. exact (ToString_throws _ _ Ht).
Qed.

(** Whatever [login] throws reaches [submit] as an [Error] instance. *)
Lemma login_throws_Error engine_message net ls e :
  fst (login net ls) = Throw e ->
  exists name message, LoginAttempt.caught engine_message e = VError name message.
Proof.
  intros H. destruct (login_throws net ls e H) as [-> | [-> | [m ->]]];
    simpl; eauto.
Qed.

(** When [login] throws, the storage is as it was. *)
Lemma login_throws_storage net ls e :
  fst (login net ls) = Throw e -> snd (login net ls) = ls.
Proof.
  destruct net as [resp |]; [| reflexivity].
  unfold login. destruct (negb (ok resp)); [reflexivity |].
  destruct (JSON_parse (VStr (body resp))) as [data | e0]; [| reflexivity].
  destruct (ToBoolean (OptGet data "token")); [| discriminate].
  destruct (ToString (Get data "token")); [discriminate | reflexivity].
Qed.

(** The normalizer returns on every [Error] instance. *)
Lemma extractMessage_Error name message :
  exists v, extractMessage (VError name message) = Return v.
Proof.
  unfold extractMessage, try_catch.
  destruct (match working_object (VError name message) with
            | Returned v => Return v
            | Working errorObj => from_working errorObj (VError name message)
            end); eauto.
Qed.

(** ... and returns the message of an [Error] whose message is a non-empty
    text that is not JSON. *)
Lemma extractMessage_Error_plain name m :
  m <> "" -> JSON.parse m = None ->
  extractMessage (VError name m) = Return (VStr m).
Proof.
  intros Hne Hp. unfold extractMessage.
  rewrite (working_object_message (VError name m) m); try assumption;
    [| discriminate | reflexivity].
  rewrite Hp. reflexivity.
Qed.

Lemma settle_unfold engine_message net ls s i :
  LoginAttempt.settle engine_message net ls s i =
  (step s (match fst (login net ls) with
           | Return _ => Fulfilled i
           | Throw e => Rejected i (LoginAttempt.caught engine_message e)
           end),
   snd (login net ls)).
Proof.
  unfold LoginAttempt.settle. destruct (login net ls) as [[data | e] ls'];
    reflexivity.
Qed.

(** However a login fails (no response, a response that is not a 2xx, a
    body that is not JSON, a token that cannot be stored), the attempt ends
    with the flag lowered, success not signalled anew, the form untouched
    and the storage as it was. *)
Theorem login_failure_settles (engine_message : string) (net : fetched)
    (ls : storage) (e : exn) (s : system) (i : nat) (c : credentials) :
  fst (login net ls) = Throw e ->
  outstanding s !! i = Some c ->
  exists s',
    LoginAttempt.settle engine_message net ls s i = (Some s', ls)
    /\ loading (comp s') = false
    /\ success (comp s') = success (comp s)
    /\ form (comp s') = form (comp s)
    /\ outstanding s' = delete i (outstanding s).
Proof.
  intros He Hi. rewrite settle_unfold, He, (login_throws_storage net ls e He).
  destruct (login_throws_Error engine_message net ls e He) as (name & m & ->).
  simpl. rewrite Hi. eexists. split; [reflexivity |]. simpl.
  unfold on_rejected.
  destruct (extractMessage_Error name m) as [v ->]. repeat split.
Qed.

Lemma login_failure_settles_witness :
  fst (login Failed ∅) = Throw TypeError
  /\ outstanding awaiting_login !! 0 = Some sample_credentials
  /\ exists s',
       LoginAttempt.settle "Failed to fetch" Failed ∅ awaiting_login 0 = (Some s', ∅)
       /\ loading (comp s') = false
       /\ success (comp s') = success (comp awaiting_login)
       /\ form (comp s') = form (comp awaiting_login)
       /\ outstanding s' = delete 0 (outstanding awaiting_login).
Proof.
  split; [reflexivity |].
  split; [reflexivity |].
  apply (login_failure_settles "Failed to fetch" Failed ∅ TypeError
           awaiting_login 0 sample_credentials); reflexivity.
Defined.

(** A response that is not a 2xx and whose body is a non-empty text that is
    not JSON: the body is displayed word for word. *)
Theorem login_failure_plain_text (engine_message : string) (resp : response)
    (ls : storage) (s : system) (i : nat) (c : credentials) :
  ok resp = false ->
  body resp <> "" ->
  JSON.parse (body resp) = None ->
  outstanding s !! i = Some c ->
  LoginAttempt.settle engine_message (Responded resp) ls s i
  = (Some {| comp := {| form := form (comp s); loading := false;
                        error := VStr (body resp); success := success (comp s) |};
             outstanding := delete i (outstanding s);
             navigating := navigating s |},
     ls).
Proof.
  intros Hok Hne Hp Hi. unfold LoginAttempt.settle, login. rewrite Hok. simpl.
  apply String.eqb_neq in Hne as Hne'. rewrite Hne'. simpl. rewrite Hi.
  unfold on_rejected.
  rewrite (extractMessage_Error_plain "Error" (body resp) Hne Hp). reflexivity.
Qed.

Lemma login_failure_plain_text_witness :
  ok {| status := 403; body := "Conta desativada" |} = false
  /\ "Conta desativada" <> ""
  /\ JSON.parse "Conta desativada" = None
  /\ LoginAttempt.settle "" (Responded {| status := 403; body := "Conta desativada" |})
                          ∅ awaiting_login 0
     = (Some {| comp := {| form := sample_credentials; loading := false;
                           error := VStr "Conta desativada"; success := false |};
                outstanding := [];
                navigating := 0 |},
        ∅).
Proof.
  split; [reflexivity |].
  split; [discriminate |].
  split; [vm_compute; reflexivity |].
  apply (login_failure_plain_text "" {| status := 403; body := "Conta desativada" |}
           ∅ awaiting_login 0 sample_credentials);
    [reflexivity | discriminate | vm_compute; reflexivity | reflexivity].
Defined.

(** A response that is not a 2xx and has an empty body: what is displayed
    is [Login failed: ] followed by the status. *)
Theorem login_failure_empty_body (engine_message : string) (resp : response)
    (ls : storage) (s : system) (i : nat) (c : credentials) :
  ok resp = false ->
  body resp = "" ->
  outstanding s !! i = Some c ->
  LoginAttempt.settle engine_message (Responded resp) ls s i
  = (Some {| comp := {| form := form (comp s); loading := false;
                        error := VStr ("Login failed: " ++ Number.digits (status resp));
                        success := success (comp s) |};
             outstanding := delete i (outstanding s);
             navigating := navigating s |},
     ls).
Proof.
  intros Hok Hb Hi. unfold LoginAttempt.settle, login. rewrite Hok, Hb. simpl.
  rewrite Hi. unfold on_rejected.
  rewrite (extractMessage_Error_plain "Error"
             ("Login failed: " ++ Number.digits (status resp)));
    [reflexivity | discriminate | reflexivity].
Qed.

Lemma login_failure_empty_body_witness :
  ok {| status := 500; body := "" |} = false
  /\ LoginAttempt.settle "" (Responded {| status := 500; body := "" |})
                          ∅ awaiting_login 0
     = (Some {| comp := {| form := sample_credentials; loading := false;
                           error := VStr "Login failed: 500"; success := false |};
                outstanding := [];
                navigating := 0 |},
        ∅).
Proof.
  split; [reflexivity |].
  apply (login_failure_empty_body "" {| status := 500; body := "" |}
           ∅ awaiting_login 0 sample_credentials); reflexivity.
Defined.

(** No response at all, or a 2xx response whose body is not JSON (an empty
    body included): the attempt is handled as a failure, and what is
    displayed is the runtime's own error text, when that is a non-empty text
    that is not JSON. *)
Theorem login_runtime_failure_displayed (engine_message : string)
    (net : fetched) (ls : storage) (s : system) (i : nat) (c : credentials) :
  net = Failed
  \/ (exists resp, net = Responded resp /\ ok resp = true
                   /\ JSON.parse (body resp) = None) ->
  engine_message <> "" ->
  JSON.parse engine_message = None ->
  outstanding s !! i = Some c ->
  LoginAttempt.settle engine_message net ls s i
  = (Some {| comp := {| form := form (comp s); loading := false;
                        error := VStr engine_message;
                        success := success (comp s) |};
             outstanding := delete i (outstanding s);
             navigating := navigating s |},
     ls).
Proof.
  intros Hnet Hne Hp Hi. unfold LoginAttempt.settle.
  destruct Hnet as [-> | (resp & -> & Hok & Hb)].
  - simpl. rewrite Hi. unfold on_rejected.
    rewrite (extractMessage_Error_plain "TypeError" engine_message Hne Hp).
    reflexivity.
  - unfold login. rewrite Hok, JSON_parse_VStr, Hb. simpl. rewrite Hi.
    unfold on_rejected.
    rewrite (extractMessage_Error_plain "SyntaxError" engine_message Hne Hp).
    reflexivity.
Qed.

Lemma login_runtime_failure_displayed_witness :
  ok {| status := 204; body := "" |} = true
  /\ JSON.parse "" = None
  /\ "Unexpected end of JSON input" <> ""
  /\ JSON.parse "Unexpected end of JSON input" = None
  /\ LoginAttempt.settle "Unexpected end of JSON input"
                          (Responded {| status := 204; body := "" |})
                          ∅ awaiting_login 0
     = (Some {| comp := {| form := sample_credentials; loading := false;
                           error := VStr "Unexpected end of JSON input";
                           success := false |};
                outstanding := [];
                navigating := 0 |},
        ∅).
Proof.
  split; [reflexivity |].
  split; [reflexivity |].
  split; [discriminate |].
  split; [vm_compute; reflexivity |].
  apply (login_runtime_failure_displayed "Unexpected end of JSON input"
           (Responded {| status := 204; body := "" |}) ∅ awaiting_login 0
           sample_credentials);
    [right; exists {| status := 204; body := "" |}; repeat split
    | discriminate | vm_compute; reflexivity | reflexivity].
Defined.

(** A 2xx response whose parsed body has no truthy [token]: the attempt
    counts as a success (the flag lowered, [success] set, a navigation
    started) although no token has been stored. *)
Theorem login_success_without_token (engine_message : string) (resp : response)
    (data : value) (ls : storage) (s : system) (i : nat) (c : credentials) :
  ok resp = true ->
  JSON.parse (body resp) = Some data ->
  ToBoolean (OptGet data "token") = false ->
  outstanding s !! i = Some c ->
  LoginAttempt.settle engine_message (Responded resp) ls s i
  = (Some {| comp := {| form := form (comp s); loading := false;
                        error := error (comp s); success := true |};
             outstanding := delete i (outstanding s);
             navigating := S (navigating s) |},
     ls).
Proof.
  intros Hok Hp Ht Hi. unfold LoginAttempt.settle, login.
  rewrite Hok, JSON_parse_VStr, Hp. simpl. rewrite Ht. simpl. rewrite Hi.
  reflexivity.
Qed.

Lemma login_success_without_token_witness :
  ok {| status := 200; body := json_no_token |} = true
  /\ JSON.parse json_no_token
     = Some (VObj [("expiresIn", VNum (Number.of_decimal false 3600 0))])
  /\ LoginAttempt.settle "" (Responded {| status := 200; body := json_no_token |})
                          ∅ awaiting_login 0
     = (Some {| comp := {| form := sample_credentials; loading := false;
                           error := VNull; success := true |};
                outstanding := [];
                navigating := 1 |},
        ∅).
Proof.
  split; [reflexivity |].
  split; [vm_compute; reflexivity |].
  apply (login_success_without_token "" {| status := 200; body := json_no_token |}
           (VObj [("expiresIn", VNum (Number.of_decimal false 3600 0))])
           ∅ awaiting_login 0 sample_credentials);
    [reflexivity | vm_compute; reflexivity | reflexivity | reflexivity].
Defined.

(** ** The credential submitter, further *)

Lemma on_rejected_success err c : success (on_rejected err c) = success c.
Proof. unfold on_rejected. destruct (extractMessage err); reflexivity. Qed.

Lemma step_success s e s' :
  step s e = Some s' -> success (comp s) = true -> success (comp s') = true.
Proof.
  destruct e as [f | | i | i err | | err]; simpl.
  - intros [= <-]. simpl. auto.
  - intros [= <-]. unfold submit. destruct (invalid (form (comp s))); simpl; auto.
  - destruct (outstanding s !! i); [| discriminate]. intros [= <-]. reflexivity.
  - destruct (outstanding s !! i); [| discriminate]. intros [= <-]. simpl.
    rewrite on_rejected_success. auto.
  - destruct (navigating s); [discriminate |]. intros [= <-]. simpl. auto.
  - destruct (navigating s); [discriminate |]. intros [= <-]. simpl.
    rewrite on_rejected_success. auto.
Qed.

(** Nothing withdraws [success]: once an attempt has succeeded the flag
    stays set through every later edit, submission and failure, so that a
    later failed attempt shows its error beside the success message. *)
Theorem success_is_kept (es : list event) : forall s s' : system,
  run s es = Some s' ->
  success (comp s) = true ->
  success (comp s') = true.
Proof.
  induction es as [| e es IH]; simpl; intros s s' Hrun Hs.
  - injection Hrun as <-. exact Hs.
  - destruct (step s e) as [s1 |] eqn:Hstep; [| discriminate].
    exact (IH s1 s' Hrun (step_success s e s1 Hstep Hs)).
Qed.

Lemma success_is_kept_witness :
  run succeeded [Submit; Rejected 0 (VError "Error" "Conta desativada")]
  = Some {| comp := {| form := sample_credentials; loading := false;
                       error := VStr "Conta desativada"; success := true |};
            outstanding := [];
            navigating := 1 |}
  /\ success (comp succeeded) = true
  /\ success (comp {| comp := {| form := sample_credentials; loading := false;
                                 error := VStr "Conta desativada"; success := true |};
                      outstanding := [];
                      navigating := 1 |}) = true.
Proof.
  split; [vm_compute; reflexivity |].
  split; [reflexivity |].
  apply (success_is_kept [Submit; Rejected 0 (VError "Error" "Conta desativada")]
           succeeded);
    [vm_compute; reflexivity | reflexivity].
Defined.

(** As long as the password is empty no login is issued: from a component
    built with an empty password, through any events that leave it empty,
    nothing is outstanding, the flag is never raised and no navigation
    starts. *)
Theorem no_login_without_password (f : credentials) (es : list event)
    (s : system) :
  password f = "" ->
  blank_passwords es = true ->
  run (init f) es = Some s ->
  outstanding s = [] /\ navigating s = 0
  /\ loading (comp s) = false /\ success (comp s) = false
  /\ error (comp s) = VNull.
Proof.
  intros Hf. 
  assert (Hgen : forall es s0 s1,
             password (form (comp s0)) = "" ->
             outstanding s0 = [] -> navigating s0 = 0 ->
             blank_passwords es = true ->
             run s0 es = Some s1 ->
             outstanding s1 = [] /\ navigating s1 = 0
             /\ comp s1 = {| form := form (comp s1); loading := loading (comp s0);
                             error := error (comp s0); success := success (comp s0) |}).
  { clear. induction es as [| e es IH]; simpl; intros s0 s1 Hp Ho Hn Hb Hrun.
    - injection Hrun as <-. repeat split; try assumption.
      destruct (comp s0); reflexivity.
    - apply andb_true_iff in Hb as [He Hb].
      destruct e as [f | | i | i err | | err]; simpl in Hrun.
      + apply String.eqb_eq in He.
        apply IH in Hrun; [| exact He | exact Ho | exact Hn | exact Hb].
        exact Hrun.
      + unfold submit in Hrun. unfold invalid in Hrun. rewrite Hp in Hrun.
        simpl in Hrun. exact (IH s0 s1 Hp Ho Hn Hb Hrun).
      + rewrite Ho in Hrun. discriminate.
      + rewrite Ho in Hrun. discriminate.
      + rewrite Hn in Hrun. discriminate.
      + rewrite Hn in Hrun. discriminate. }
  intros Hb Hrun.
  destruct (Hgen es (init f) s Hf eq_refl eq_refl Hb Hrun) as (H1 & H2 & H3).
  rewrite H3. simpl. repeat split; assumption.
Qed.

Lemma no_login_without_password_witness :
  password {| email := "joao@example.com"; password := "" |} = ""
  /\ blank_passwords [Submit; Edit {| email := "maria@example.com"; password := "" |};
                      Submit] = true
  /\ run (init {| email := "joao@example.com"; password := "" |})
         [Submit; Edit {| email := "maria@example.com"; password := "" |}; Submit]
     = Some (init {| email := "maria@example.com"; password := "" |})
  /\ outstanding (init {| email := "maria@example.com"; password := "" |}) = [].
Proof.
  split; [reflexivity |].
  split; [reflexivity |].
  split; [reflexivity |].
  apply (no_login_without_password
           {| email := "joao@example.com"; password := "" |}
           [Submit; Edit {| email := "maria@example.com"; password := "" |}; Submit]
           (init {| email := "maria@example.com"; password := "" |}));
    reflexivity.
Defined.

(** ** The revision without the error parser *)

Lemma pending_flag_init f : pending_flag (LoginComponentPlain.init f).
Proof. split; simpl; [lia |]. split; [discriminate | lia]. Qed.

Lemma on_caught_loading err c :
  LoginComponentPlain.loading (LoginComponentPlain.on_caught err c) = false.
Proof.
  unfold LoginComponentPlain.on_caught.
  destruct (if ToBoolean (OptGet err "message") then Return (OptGet err "message")
            else String_ err); reflexivity.
Qed.

Lemma length_delete_lookup {A} (l : list A) (i : nat) (x : A) :
  l !! i = Some x -> length l = S (length (delete i l)).
Proof.
  revert i. induction l as [| y l IH]; intros [| i]; simpl; try discriminate.
  - reflexivity.
  - intros H. f_equal. exact (IH i H).
Qed.

Lemma pending_flag_step s e s' :
  pending_flag s ->
  (e = LoginComponentPlain.Submit ->
   LoginComponentPlain.loading (LoginComponentPlain.comp s) = false) ->
  LoginComponentPlain.step s e = Some s' ->
  pending_flag s'.
Proof.
  intros [Hle Hiff] Hgate Hstep.
  destruct e as [f | | i | i err | | err]; simpl in Hstep.
  - injection Hstep as <-. split; simpl; assumption.
  - injection Hstep as <-. specialize (Hgate eq_refl).
    assert (Hzero : length (LoginComponentPlain.outstanding s)
                    + LoginComponentPlain.navigating s = 0).
    { destruct (Nat.eq_dec (length (LoginComponentPlain.outstanding s)
                            + LoginComponentPlain.navigating s) 1) as [H1 | H1].
      - apply Hiff in H1. congruence.
      - lia. }
    unfold LoginComponentPlain.submit.
    destruct (LoginComponentPlain.invalid _); [split; assumption |].
    split; simpl; rewrite length_app; simpl; [lia |].
    split; [lia | reflexivity].
  - destruct (LoginComponentPlain.outstanding s !! i) as [c |] eqn:Hi;
      [| discriminate].
    injection Hstep as <-. apply length_delete_lookup in Hi.
    split; simpl; [lia |]. rewrite Hiff. lia.
  - destruct (LoginComponentPlain.outstanding s !! i) as [c |] eqn:Hi;
      [| discriminate].
    injection Hstep as <-. apply length_delete_lookup in Hi.
    split; simpl; [lia |]. rewrite on_caught_loading.
    split; [discriminate | lia].
  - destruct (LoginComponentPlain.navigating s) as [| n] eqn:Hn; [discriminate |].
    injection Hstep as <-. split; simpl; [lia |].
    split; [discriminate | lia].
  - destruct (LoginComponentPlain.navigating s) as [| n] eqn:Hn; [discriminate |].
    injection Hstep as <-. split; simpl; [lia |]. rewrite on_caught_loading.
    split; [discriminate | lia].
Qed.

(** In the revision that lowers the flag in a [finally] block: through
    every run in which [submit()] is only called while the flag is clear,
    failed navigations included, at most one login or navigation is awaited
    and the flag is raised exactly while one is. *)
Theorem plain_submit_flag_tracks_attempt (es : list LoginComponentPlain.event) :
  forall s s' : LoginComponentPlain.system,
    pending_flag s ->
    LoginComponentPlain.gated s es = true ->
    LoginComponentPlain.run s es = Some s' ->
    length (LoginComponentPlain.outstanding s') + LoginComponentPlain.navigating s' <= 1
    /\ (LoginComponentPlain.loading (LoginComponentPlain.comp s') = true
        <-> length (LoginComponentPlain.outstanding s')
            + LoginComponentPlain.navigating s' = 1).
Proof.
  induction es as [| e es IH]; simpl; intros s s' Hinv Hg Hrun.
  - injection Hrun as <-. exact Hinv.
  - apply andb_true_iff in Hg as [Hgate Hg].
    destruct (LoginComponentPlain.step s e) as [s1 |] eqn:Hstep; [| discriminate].
    apply (IH s1 s'); [| exact Hg | exact Hrun].
    apply (pending_flag_step s e s1 Hinv); [| exact Hstep].
    intros ->. apply negb_true_iff. exact Hgate.
Qed.

Lemma plain_submit_flag_tracks_attempt_witness :
  pending_flag (LoginComponentPlain.init plain_credentials)
  /\ LoginComponentPlain.gated (LoginComponentPlain.init plain_credentials)
       [LoginComponentPlain.Submit; LoginComponentPlain.Fulfilled 0;
        LoginComponentPlain.NavigationFailed (VStr "NG04002");
        LoginComponentPlain.Submit] = true
  /\ LoginComponentPlain.run (LoginComponentPlain.init plain_credentials)
       [LoginComponentPlain.Submit; LoginComponentPlain.Fulfilled 0;
        LoginComponentPlain.NavigationFailed (VStr "NG04002");
        LoginComponentPlain.Submit]
     = Some {| LoginComponentPlain.comp :=
                 {| LoginComponentPlain.form := plain_credentials;
                    LoginComponentPlain.loading := true;
                    LoginComponentPlain.error := VNull |};
               LoginComponentPlain.outstanding := [plain_credentials];
               LoginComponentPlain.navigating := 0 |}
  /\ length [plain_credentials] + 0 <= 1.
Proof.
  split; [apply pending_flag_init |].
  split; [vm_compute; reflexivity |].
  split; [vm_compute; reflexivity |].
  refine (proj1 (plain_submit_flag_tracks_attempt
                   [LoginComponentPlain.Submit; LoginComponentPlain.Fulfilled 0;
                    LoginComponentPlain.NavigationFailed (VStr "NG04002");
                    LoginComponentPlain.Submit]
                   (LoginComponentPlain.init plain_credentials)
                   {| LoginComponentPlain.comp :=
                        {| LoginComponentPlain.form := plain_credentials;
                           LoginComponentPlain.loading := true;
                           LoginComponentPlain.error := VNull |};
                      LoginComponentPlain.outstanding := [plain_credentials];
                      LoginComponentPlain.navigating := 0 |} _ _ _));
    [apply pending_flag_init | vm_compute; reflexivity | vm_compute; reflexivity].
Defined.

(** ** The notification queue *)

Lemma removeNotification_notifications i s n :
  In n (NotificationService.notifications (NotificationService.removeNotification i s))
  <-> In n (NotificationService.notifications s) /\ NotificationService.id n <> i.
Proof.
  unfold NotificationService.removeNotification. simpl.
  rewrite filter_In, negb_true_iff. split; intros [H1 H2]; split; try assumption.
  - apply String.eqb_neq. exact H2.
  - apply String.eqb_neq. exact H2.
Qed.

Lemma filter_all {A} (p : A -> bool) (l : list A) :
  (forall x, In x l -> p x = true) -> List.filter p l = l.
Proof.
  induction l as [| x l IH]; simpl; intros H; [reflexivity |].
  rewrite (H x (or_introl eq_refl)). f_equal. apply IH. auto.
Qed.

(** [removeNotification] removes every notification that carries the id,
    keeps the others in their order, and changes nothing when called a
    second time with the same id. *)
Theorem removeNotification_idempotent (i : string)
    (s : NotificationService.service) :
  (forall n,
      In n (NotificationService.notifications
              (NotificationService.removeNotification i s)) ->
      NotificationService.id n <> i)
  /\ NotificationService.removeNotification i
       (NotificationService.removeNotification i s)
     = NotificationService.removeNotification i s.
Proof.
  split.
  - intros n Hn. apply removeNotification_notifications in Hn. tauto.
  - unfold NotificationService.removeNotification. simpl. f_equal.
    apply filter_all. intros n Hn. apply filter_In in Hn. tauto.
Qed.

Lemma removeNotification_idempotent_witness :
  In (sample_notification "b")
     (NotificationService.notifications
        (NotificationService.removeNotification "a" sample_service))
  /\ NotificationService.id (sample_notification "b") <> "a".
Proof.
  split; [left; reflexivity |].
  apply (proj1 (removeNotification_idempotent "a" sample_service)
           (sample_notification "b")).
  left. reflexivity.
Defined.

(** Removing an id that no notification carries (one never given out, or
    one removed already) leaves the service as it is. *)
Theorem removeNotification_absent (i : string)
    (s : NotificationService.service) :
  (forall n, In n (NotificationService.notifications s) ->
             NotificationService.id n <> i) ->
  NotificationService.removeNotification i s = s.
Proof.
  intros H. destruct s as [ns ts]. unfold NotificationService.removeNotification.
  simpl in *. f_equal. apply filter_all. intros n Hn.
  apply negb_true_iff, String.eqb_neq. exact (H n Hn).
Qed.

Lemma removeNotification_absent_witness :
  (forall n, In n (NotificationService.notifications sample_service) ->
             NotificationService.id n <> "c")
  /\ NotificationService.removeNotification "c" sample_service = sample_service.
Proof.
  assert (H : forall n, In n (NotificationService.notifications sample_service) ->
                        NotificationService.id n <> "c").
  { intros n [<- | [<- | []]]; discriminate. }
  split; [exact H |].
  exact (removeNotification_absent "c" sample_service H).
Defined.

(** Adding a notification under an id that is not in use and removing that
    id again gives back the list as it was. *)
Theorem addNotification_removeNotification
    (n : NotificationService.Notification) (s : NotificationService.service) :
  (forall m, In m (NotificationService.notifications s) ->
             NotificationService.id m <> NotificationService.id n) ->
  NotificationService.notifications
    (NotificationService.removeNotification (NotificationService.id n)
       (NotificationService.addNotification n s))
  = NotificationService.notifications s.
Proof.
  intros H. unfold NotificationService.removeNotification,
    NotificationService.addNotification. simpl.
  rewrite List.filter_app. simpl. rewrite String.eqb_refl. simpl.
  rewrite app_nil_r. apply filter_all. intros m Hm.
  apply negb_true_iff, String.eqb_neq. exact (H m Hm).
Qed.

Lemma addNotification_removeNotification_witness :
  (forall m, In m (NotificationService.notifications sample_service) ->
             NotificationService.id m <> NotificationService.id (sample_notification "c"))
  /\ NotificationService.notifications
       (NotificationService.removeNotification "c"
          (NotificationService.addNotification (sample_notification "c")
             sample_service))
     = NotificationService.notifications sample_service.
Proof.
  assert (H : forall m, In m (NotificationService.notifications sample_service) ->
                        NotificationService.id m
                        <> NotificationService.id (sample_notification "c")).
  { intros m [<- | [<- | []]]; discriminate. }
  split; [exact H |].
  exact (addNotification_removeNotification (sample_notification "c")
           sample_service H).
Defined.

(** Two removals can be made in either order. *)
Theorem removeNotification_commutes (i j : string)
    (s : NotificationService.service) :
  NotificationService.removeNotification i
    (NotificationService.removeNotification j s)
  = NotificationService.removeNotification j
      (NotificationService.removeNotification i s).
Proof.
  unfold NotificationService.removeNotification. simpl. f_equal.
  induction (NotificationService.notifications s) as [| n ns IH]; simpl;
    [reflexivity |].
  destruct (NotificationService.id n =? j) eqn:Hj,
           (NotificationService.id n =? i) eqn:Hi; simpl;
    rewrite ?Hi, ?Hj; simpl; congruence.
Qed.

Lemma timers_cover_add n s :
  timers_cover s -> timers_cover (NotificationService.addNotification n s).
Proof.
  intros H m Hm He. unfold NotificationService.addNotification in *. simpl in *.
  apply in_app_or in Hm as [Hm | [Heq | []]].
  - destruct (H m Hm He) as [d Hd]. exists d.
    destruct (NotificationService.duration n) as [dn |]; [| exact Hd].
    destruct (Number.to_boolean dn); [| exact Hd].
    apply in_or_app. left. exact Hd.
  - subst m. unfold NotificationService.expires in He.
    destruct (NotificationService.duration n) as [dn |]; [| discriminate].
    rewrite He. exists dn. apply in_or_app. right. left. reflexivity.
Qed.

Lemma in_delete_other {A} (l : list A) (j : nat) (x y : A) :
  l !! j = Some x -> In y l -> y <> x -> In y (delete j l).
Proof.
  revert j. induction l as [| z l IH]; intros [| j]; simpl; try discriminate.
  - intros [= ->] [-> | H] Hne; [contradiction | exact H].
  - intros Hj [-> | H] Hne; [left; reflexivity | right; exact (IH j Hj H Hne)].
Qed.

Lemma timers_cover_step s e s' :
  timers_cover s -> NotificationService.step s e = Some s' -> timers_cover s'.
Proof.
  intros H. destruct e as [k fresh title message duration | i | j]; simpl.
  - destruct k; intros [= <-]; apply timers_cover_add; exact H.
  - intros [= <-] n Hn He. apply removeNotification_notifications in Hn as [Hn _].
    exact (H n Hn He).
  - destruct (NotificationService.timers s !! j) as [[i d] |] eqn:Hj;
      [| discriminate].
    intros [= <-] n Hn He. simpl in *.
    apply filter_In in Hn as [Hn Hne].
    apply negb_true_iff, String.eqb_neq in Hne.
    destruct (H n Hn He) as [dn Hdn]. exists dn.
    apply (in_delete_other _ j (i, d)); [exact Hj | exact Hdn | congruence].
Qed.

(** From a service in which every expiring notification has its timer
    pending, the empty one to begin with, through any calls of the
    producers, any dismissals and any timers running in any order, every
    notification on the list that expires still has its timer pending: none
    is left on display without one. *)
Theorem expiring_notifications_have_timers
    (es : list NotificationService.event) :
  forall s s' : NotificationService.service,
    timers_cover s ->
    NotificationService.run s es = Some s' ->
    forall n, In n (NotificationService.notifications s') ->
              NotificationService.expires n = true ->
              exists d, In (NotificationService.id n, d)
                           (NotificationService.timers s').
Proof.
  induction es as [| e es IH]; simpl; intros s s' Hc Hrun.
  - injection Hrun as <-. exact Hc.
  - destruct (NotificationService.step s e) as [s1 |] eqn:Hstep; [| discriminate].
    exact (IH s1 s' (timers_cover_step s e s1 Hc Hstep) Hrun).
Qed.

Lemma expiring_notifications_have_timers_witness :
  timers_cover NotificationService.empty
  /\ NotificationService.run NotificationService.empty sample_events
     = Some sample_events_service
  /\ NotificationService.expires expiring_notification = true
  /\ exists d, In (NotificationService.id expiring_notification, d)
                  (NotificationService.timers sample_events_service).
Proof.
  assert (H0 : timers_cover NotificationService.empty) by (intros n []).
  split; [exact H0 |].
  split; [vm_compute; reflexivity |].
  split; [reflexivity |].
  apply (expiring_notifications_have_timers sample_events
           NotificationService.empty sample_events_service H0);
    [vm_compute; reflexivity | left; reflexivity | reflexivity].
Defined.

(** ** The alert *)

(** Two alerts show the same icon only when they have the same type or
    when neither type is one of [error], [success], [warning], [info]. *)
Theorem getIcon_tells_types_apart (a b : AlertComponent.AlertData) :
  AlertComponent.getIcon a = AlertComponent.getIcon b ->
  AlertComponent.type a = AlertComponent.type b
  \/ (AlertComponent.getIcon a = "•" /\ AlertComponent.getIcon b = "•"
      /\ ~ In (AlertComponent.type a) ["error"; "success"; "warning"; "info"]
      /\ ~ In (AlertComponent.type b) ["error"; "success"; "warning"; "info"]).
Proof.
  unfold AlertComponent.getIcon.
  destruct (AlertComponent.type a =? "error") eqn:Ha1;
    [| destruct (AlertComponent.type a =? "success") eqn:Ha2;
       [| destruct (AlertComponent.type a =? "warning") eqn:Ha3;
          [| destruct (AlertComponent.type a =? "info") eqn:Ha4]]];
  (destruct (AlertComponent.type b =? "error") eqn:Hb1;
    [| destruct (AlertComponent.type b =? "success") eqn:Hb2;
       [| destruct (AlertComponent.type b =? "warning") eqn:Hb3;
          [| destruct (AlertComponent.type b =? "info") eqn:Hb4]]]);
  intros H; try discriminate H;
  repeat match goal with
         | E : (_ =? _) = true |- _ => apply String.eqb_eq in E
         | E : (_ =? _) = false |- _ => apply String.eqb_neq in E
         end;
  try (left; congruence).
  right. repeat split; try reflexivity; simpl; intuition congruence.
Qed.

Lemma getIcon_tells_types_apart_witness :
  AlertComponent.getIcon
    {| AlertComponent.id := "a"; AlertComponent.type := "fatal";
       AlertComponent.title := ""; AlertComponent.message := "" |}
  = AlertComponent.getIcon
      {| AlertComponent.id := "b"; AlertComponent.type := "debug";
         AlertComponent.title := ""; AlertComponent.message := "" |}
  /\ AlertComponent.getIcon
       {| AlertComponent.id := "a"; AlertComponent.type := "fatal";
          AlertComponent.title := ""; AlertComponent.message := "" |} = "•".
Proof.
  split; [reflexivity |].
  destruct (getIcon_tells_types_apart
              {| AlertComponent.id := "a"; AlertComponent.type := "fatal";
                 AlertComponent.title := ""; AlertComponent.message := "" |}
              {| AlertComponent.id := "b"; AlertComponent.type := "debug";
                 AlertComponent.title := ""; AlertComponent.message := "" |}
              eq_refl) as [H | [H _]].
  - discriminate H.
  - exact H.
Defined.
